(** * OM1 hardware bridge: motor connectors and ESP32 input sources

    A shallow embedding of
      - [actions/motor/interface.py]            (MotorAction, MotorInput)
      - [actions/motor/connector/serial_control.py] (SerialMotor)
      - [actions/motor/connector/wifi_control.py]   (WifiMotor)
      - [inputs/plugins/esp32_control.py]       (Esp32Control)
      - [inputs/plugins/esp32_cam_video.py]     (Esp32CamVideo)

    Every method is a computation in a small monad that threads the
    object ([self]), records the calls made on the outside world
    (serial port, socket, capture device, logger, providers) in a trace,
    and either returns a value or raises.  What the outside world answers
    to a call is a parameter of the method (a record of replies), so each
    statement below quantifies over every behaviour of the devices. *)

From Stdlib Require Import String Ascii List ZArith Bool Arith Lia.
From Stdlib Require Import Numbers.DecimalString.
Import ListNotations.

Open Scope string_scope.

(* ================================================================== *)
(** * Python values used by the code *)
(* ================================================================== *)

(** A line feed, as in the literal ["\n"]. *)
Definition nl : string := String "010"%char EmptyString.

(** Object identities of the external resources (a [serial.Serial] port
    object, a socket, a [cv2.VideoCapture]). *)
Definition Handle := nat.

(** Clock readings ([time.time()]).  The code stores and forwards them
    and never computes with them. *)
Definition Time := Z.

Inductive Level := INFO | WARNING | ERROR.

(** Calls made on the outside world, in program order. *)
Inductive Event :=
| Log (lvl : Level) (msg : string)
| SerialOpen (port : string) (baudrate : Z) (timeout : Z)
| SerialWrite (h : Handle) (data : string)
| SerialClose (h : Handle)
| SocketCreate
| SocketSetTimeout (h : Handle)
| SocketSendTo (h : Handle) (data : string) (ip_address : string) (port : Z)
| SocketClose (h : Handle)
| VideoCaptureOpen (url : string)
| CapIsOpened (h : Handle)
| CapRead (h : Handle)
| CapRelease (h : Handle)
| Sleep (num den : Z)
| AddInput (label text : string) (timestamp : Time)
| StoreUserMessage (text : string)
| InputReturned (line : string)
| QueuePut (item : string)
| QueueGet (item : string)
| Print (text : string).

(** A call either returns or raises; the exception carries its text
    (what [f"{e}"] prints).  The exceptions of this type are the
    instances of [Exception] (an [OSError] of a device, a
    [ZeroDivisionError], ...): every statement about an [Outcome] is
    about calls that return or raise an instance of [Exception].  What
    is raised outside that class ([KeyboardInterrupt], [SystemExit]) is
    the matter of [OutcomeC] below. *)
Inductive Outcome (A : Type) :=
| Returns (a : A)
| Raises (e : string).
Arguments Returns {A} a.
Arguments Raises {A} e.

(* ================================================================== *)
(** * The effect monad *)
(* ================================================================== *)

(** A method of an object of type [S]: from the object before the call
    to the outcome, the object after the call and the trace of the call.
    When a call raises, the attributes assigned so far stay assigned. *)
Definition Eff (S A : Type) : Type := S -> Outcome A * S * list Event.

Section Monad.
Context {S : Type}.

Definition ret {A} (a : A) : Eff S A := fun s => (Returns a, s, []).

Definition raise {A} (e : string) : Eff S A := fun s => (Raises e, s, []).

Definition bind {A B} (m : Eff S A) (k : A -> Eff S B) : Eff S B :=
  fun s =>
    match m s with
    | (Returns a, s1, t1) =>
        let '(r, s2, t2) := k a s1 in (r, s2, (t1 ++ t2)%list)
    | (Raises e, s1, t1) => (Raises e, s1, t1)
    end.

(** [try: body  except Exception as e: handler e], on the exceptions
    of [Outcome], all instances of [Exception].  On these the bare
    [except:] of [serial_control.py] (the close in the clean-up) catches
    the same ones and is written with the same combinator.  With the
    class of what is raised the two clauses are [except_Exception] and
    [except_all] below. *)
Definition try_except {A} (body : Eff S A) (handler : string -> Eff S A)
  : Eff S A :=
  fun s =>
    match body s with
    | (Returns a, s1, t1) => (Returns a, s1, t1)
    | (Raises e, s1, t1) =>
        let '(r, s2, t2) := handler e s1 in (r, s2, (t1 ++ t2)%list)
    end.

Definition get : Eff S S := fun s => (Returns s, s, []).
Definition put (s' : S) : Eff S unit := fun _ => (Returns tt, s', []).
Definition modify (f : S -> S) : Eff S unit := fun s => (Returns tt, f s, []).

(** A call on the outside world that cannot raise. *)
Definition emit (ev : Event) : Eff S unit := fun s => (Returns tt, s, [ev]).

(** A call on the outside world with the reply the world gives to it. *)
Definition call {A} (ev : Event) (reply : Outcome A) : Eff S A :=
  fun s => (reply, s, [ev]).

Definition log (lvl : Level) (msg : string) : Eff S unit := emit (Log lvl msg).
End Monad.

Declare Scope eff_scope.
Delimit Scope eff_scope with eff.
Notation "x <- m ;; k" := (bind m (fun x => k))
  (at level 61, m at next level, right associativity) : eff_scope.
Notation "m ;; k" := (bind m (fun _ => k))
  (at level 61, right associativity) : eff_scope.
Open Scope eff_scope.

(** Projections of a finished call. *)
Definition outcome {S A} (r : Outcome A * S * list Event) : Outcome A := fst (fst r).
Definition self_after {S A} (r : Outcome A * S * list Event) : S := snd (fst r).
Definition trace {S A} (r : Outcome A * S * list Event) : list Event := snd r.

(* ================================================================== *)
(** * Exceptions by class *)
(* ================================================================== *)

(** An [except Exception] clause catches the instances of [Exception]
    and nothing else: a [KeyboardInterrupt], a [SystemExit] or a
    [GeneratorExit] passes it, and a bare [except:] catches them too.
    Where it is asked what leaves a method that has such clauses, the
    method is embedded with the class of what is raised. *)

(** What is raised: [is_Exception] is [isinstance(e, Exception)], and
    [text] is what [f"{e}"] prints. *)
Record Raised := { is_Exception : bool; text : string }.

Inductive OutcomeC (A : Type) :=
| ReturnsC (a : A)
| RaisesC (x : Raised).
Arguments ReturnsC {A} a.
Arguments RaisesC {A} x.

Definition EffC (S A : Type) : Type := S -> OutcomeC A * S * list Event.

(** An outcome whose exception is an instance of [Exception]. *)
Definition of_Exception {A} (o : Outcome A) : OutcomeC A :=
  match o with
  | Returns a => ReturnsC a
  | Raises e => RaisesC {| is_Exception := true; text := e |}
  end.

Section MonadC.
Context {S : Type}.

Definition retC {A} (a : A) : EffC S A := fun s => (ReturnsC a, s, []).

Definition bindC {A B} (m : EffC S A) (k : A -> EffC S B) : EffC S B :=
  fun s =>
    match m s with
    | (ReturnsC a, s1, t1) =>
        let '(r, s2, t2) := k a s1 in (r, s2, (t1 ++ t2)%list)
    | (RaisesC x, s1, t1) => (RaisesC x, s1, t1)
    end.

(** [try: body  except Exception as e: handler e] *)
Definition except_Exception {A} (body : EffC S A) (handler : string -> EffC S A)
  : EffC S A :=
  fun s =>
    match body s with
    | (ReturnsC a, s1, t1) => (ReturnsC a, s1, t1)
    | (RaisesC x, s1, t1) =>
        if is_Exception x then
          let '(r, s2, t2) := handler (text x) s1 in (r, s2, (t1 ++ t2)%list)
        else (RaisesC x, s1, t1)
    end.

(** [try: body  except: handler] *)
Definition except_all {A} (body : EffC S A) (handler : EffC S A) : EffC S A :=
  fun s =>
    match body s with
    | (ReturnsC a, s1, t1) => (ReturnsC a, s1, t1)
    | (RaisesC _, s1, t1) =>
        let '(r, s2, t2) := handler s1 in (r, s2, (t1 ++ t2)%list)
    end.

(** A step that raises instances of [Exception] only. *)
Definition lift {A} (m : Eff S A) : EffC S A :=
  fun s => let '(o, s1, t1) := m s in (of_Exception o, s1, t1).

(** A call on the outside world with the reply the world gives to it. *)
Definition callC {A} (ev : Event) (reply : OutcomeC A) : EffC S A :=
  fun s => (reply, s, [ev]).

(** A call inside the process, with its outcome: nothing is recorded. *)
Definition internalC {A} (reply : OutcomeC A) : EffC S A :=
  fun s => (reply, s, []).
End MonadC.

Declare Scope effc_scope.
Delimit Scope effc_scope with effc.
Notation "x <- m ;; k" := (bindC m (fun x => k))
  (at level 61, m at next level, right associativity) : effc_scope.
Notation "m ;; k" := (bindC m (fun _ => k))
  (at level 61, right associativity) : effc_scope.

Definition outcomeC {S A} (r : OutcomeC A * S * list Event) : OutcomeC A :=
  fst (fst r).
Definition self_afterC {S A} (r : OutcomeC A * S * list Event) : S := snd (fst r).
Definition traceC {S A} (r : OutcomeC A * S * list Event) : list Event := snd r.

(* ================================================================== *)
(** * actions/motor/interface.py *)
(* ================================================================== *)

(** [class MotorAction(str, Enum)] *)
Inductive MotorAction := FORWARD | BACK | LEFT | RIGHT | STOP.

(** The member's value: it is the [str] the member is (mixed-in type), so
    it is what [==] and [hash] see. *)
Definition value (a : MotorAction) : string :=
  match a with
  | FORWARD => "forward"
  | BACK => "back"
  | LEFT => "left"
  | RIGHT => "right"
  | STOP => "stop"
  end.

(** The member's name. *)
Definition name (a : MotorAction) : string :=
  match a with
  | FORWARD => "FORWARD"
  | BACK => "BACK"
  | LEFT => "LEFT"
  | RIGHT => "RIGHT"
  | STOP => "STOP"
  end.

Definition all_actions : list MotorAction := [FORWARD; BACK; LEFT; RIGHT; STOP].

(** What the [action] attribute of a [MotorInput] can hold at run time:
    a member of the enumeration (what the annotation asks for) or a plain
    [str] (the dataclass does not check). *)
Inductive PyAction :=
| Member (a : MotorAction)
| Plain (s : string).

(** [@dataclass class MotorInput: action: MotorAction] *)
Record MotorInput := { action : PyAction }.

(** [str(x)].  For a member of an [Enum] class, also one that mixes in
    [str], [str()] is [Enum.__str__]: the class name, a dot, the member
    name.  For a plain [str] it is the string itself. *)
Definition py_str (x : PyAction) : string :=
  match x with
  | Member a => "MotorAction." ++ name a
  | Plain s => s
  end.

(** A [dict] whose keys are members of [MotorAction], in insertion order. *)
Definition signal_dict := list (MotorAction * string).

(** [d.get(key)] for a [str] key.  A member key [k] hashes and compares
    as its value, so the entry found is the one with [value k = key]. *)
Fixpoint dict_get (d : signal_dict) (key : string) : option string :=
  match d with
  | [] => None
  | (k, v) :: d' => if String.eqb (value k) key then Some v else dict_get d' key
  end.

(** The [signal_map] literal of both connectors. *)
Definition signal_map : signal_dict :=
  [ (FORWARD, "F"); (BACK, "B"); (STOP, "S"); (LEFT, "L"); (RIGHT, "R") ].

(** The wire code of a directive (the table of the wire protocol). *)
Definition code (a : MotorAction) : string :=
  match a with
  | FORWARD => "F"
  | BACK => "B"
  | LEFT => "L"
  | RIGHT => "R"
  | STOP => "S"
  end.

(** Truth value of an [Optional[str]]: [None] and [""] are false. *)
Definition truthy (o : option string) : bool :=
  match o with
  | Some s => negb (String.eqb s "")
  | None => false
  end.

(* ================================================================== *)
(** * actions/motor/connector/serial_control.py *)
(* ================================================================== *)

Module SerialMotor.

(** [class SerialMotorConfig]: port (default "COM3"), baudrate (115200). *)
Record SerialMotorConfig := { port : string; baudrate : Z }.

Definition default_config : SerialMotorConfig :=
  {| port := "COM3"; baudrate := 115200 |}.

(** A [serial.Serial] object: its identity and its [is_open] attribute. *)
Record Serial := { fd : Handle; is_open : bool }.

(** [class SerialMotor]: the attributes [config] and [ser]. *)
Record t := { config : SerialMotorConfig; ser : option Serial }.

(** What the serial device answers during one method call:
    [serial.Serial(port, baudrate, timeout=1)] returns a port object or
    raises, [ser.write(data)] and [ser.close()] return or raise. *)
Record World := {
  Serial_reply : string -> Z -> Outcome Serial;
  write_reply : Handle -> string -> Outcome unit;
  close_reply : Handle -> Outcome unit
}.

Definition set_ser (v : option Serial) : Eff t unit :=
  modify (fun self => {| config := config self; ser := v |}).

(** [__init__]: lazy mode, no port is opened. *)
Definition init (cfg : SerialMotorConfig) : t * list Event :=
  ({| config := cfg; ser := None |},
   [Log INFO ("SerialMotor initialized in lazy mode. Target: " ++ port cfg)]).

(** [serial.Serial(port, baudrate, timeout=1)] *)
Definition serial_Serial (w : World) (p : string) (b : Z) : Eff t Serial :=
  call (SerialOpen p b 1) (Serial_reply w p b).

(** [self.ser.write(data)]; on [None] the attribute lookup raises. *)
Definition ser_write (w : World) (data : string) : Eff t unit :=
  self <- get ;;
  match ser self with
  | Some s => call (SerialWrite (fd s) data) (write_reply w (fd s) data)
  | None => raise "'NoneType' object has no attribute 'write'"
  end.

(** [s.close()]: when it returns the object is closed. *)
Definition ser_close (w : World) (s : Serial) : Eff t unit :=
  call (SerialClose (fd s)) (close_reply w (fd s)).

(** [if self.ser is None or not self.ser.is_open] *)
Definition needs_open (self : t) : bool :=
  match ser self with
  | None => true
  | Some s => negb (is_open s)
  end.

(** [def _ensure_connection(self) -> bool] *)
Definition _ensure_connection (w : World) : Eff t bool :=
  self <- get ;;
  if needs_open self then
    try_except
      (s <- serial_Serial w (port (config self)) (baudrate (config self)) ;;
       set_ser (Some s) ;;
       log INFO ("Successfully opened Serial Port: " ++ port (config self)) ;;
       ret true)
      (fun e =>
         log ERROR ("Failed to open Serial Port " ++ port (config self)
                    ++ ": " ++ e) ;;
         set_ser None ;;
         ret false)
  else ret true.

(** [async def connect(self, output_interface: MotorInput) -> None] *)
Definition connect (w : World) (output_interface : MotorInput) : Eff t unit :=
  ok <- _ensure_connection w ;;
  if negb ok then ret tt
  else
    let action_str := py_str (action output_interface) in
    log INFO ("Received Motor Command: " ++ action_str) ;;
    let signal := dict_get signal_map action_str in
    if truthy signal then
      let sig := match signal with Some s => s | None => "" end in
      try_except
        (ser_write w (sig ++ nl) ;;
         log INFO ("Executed: " ++ action_str ++ " (Signal: " ++ sig ++ ")"))
        (fun e =>
           log ERROR ("Serial Send Error: " ++ e) ;;
           self <- get ;;
           match ser self with
           | Some s => try_except (ser_close w s) (fun _ => ret tt)
           | None => ret tt
           end ;;
           set_ser None)
    else log ERROR ("Unknown action: " ++ action_str).

(** [def close(self)] *)
Definition close (w : World) : Eff t unit :=
  self <- get ;;
  match ser self with
  | Some s =>
      if is_open s then (ser_close w s ;; set_ser None) else ret tt
  | None => ret tt
  end.

(** The guard is Connected when a port object is held and it is open. *)
Definition connected (self : t) : bool := negb (needs_open self).

End SerialMotor.

(* ================================================================== *)
(** * actions/motor/connector/wifi_control.py *)
(* ================================================================== *)

Module WifiMotor.

(** [class WifiMotorConfig]: ip_address (required), port (default 8888). *)
Record WifiMotorConfig := { ip_address : string; port : Z }.

(** [class WifiMotor]: the attributes [config] and [sock] (the socket
    object, by identity). *)
Record t := { config : WifiMotorConfig; sock : option Handle }.

(** What the operating system answers during one method call:
    [socket.socket(AF_INET, SOCK_DGRAM)], [sock.settimeout(1.0)],
    [sock.sendto(data, (ip, port))] and [sock.close()]. *)
Record World := {
  socket_reply : Outcome Handle;
  settimeout_reply : Handle -> Outcome unit;
  sendto_reply : Handle -> string -> string -> Z -> Outcome unit;
  close_reply : Handle -> Outcome unit
}.

Definition set_sock (v : option Handle) : Eff t unit :=
  modify (fun self => {| config := config self; sock := v |}).

(** [__init__]: lazy mode, no socket is created. *)
Definition init (cfg : WifiMotorConfig) : t * list Event :=
  ({| config := cfg; sock := None |},
   [Log INFO ("WifiMotor initialized in lazy mode. Target: "
              ++ ip_address cfg ++ ":"
              ++ NilEmpty.string_of_int (Z.to_int (port cfg)))]).

(** [self.sock.sendto(data, target)]; on [None] the attribute lookup raises. *)
Definition sock_sendto (w : World) (data : string) (ip : string) (p : Z)
  : Eff t unit :=
  self <- get ;;
  match sock self with
  | Some h => call (SocketSendTo h data ip p) (sendto_reply w h data ip p)
  | None => raise "'NoneType' object has no attribute 'sendto'"
  end.

Definition sock_close (w : World) (h : Handle) : Eff t unit :=
  call (SocketClose h) (close_reply w h).

(** [def _ensure_connection(self) -> bool] *)
Definition _ensure_connection (w : World) : Eff t bool :=
  self <- get ;;
  match sock self with
  | None =>
      try_except
        (h <- call SocketCreate (socket_reply w) ;;
         set_sock (Some h) ;;
         call (SocketSetTimeout h) (settimeout_reply w h) ;;
         log INFO "UDP Socket created successfully." ;;
         ret true)
        (fun e =>
           log ERROR ("Failed to create UDP socket: " ++ e) ;;
           set_sock None ;;
           ret false)
  | Some _ => ret true
  end.

(** [async def connect(self, output_interface: MotorInput) -> None] *)
Definition connect (w : World) (output_interface : MotorInput) : Eff t unit :=
  ok <- _ensure_connection w ;;
  if negb ok then ret tt
  else
    let action_str := py_str (action output_interface) in
    log INFO ("Received Motor Command: " ++ action_str) ;;
    let signal := dict_get signal_map action_str in
    if truthy signal then
      let sig := match signal with Some s => s | None => "" end in
      try_except
        (self <- get ;;
         sock_sendto w sig (ip_address (config self)) (port (config self)) ;;
         log INFO ("Sent UDP: " ++ sig))
        (fun e =>
           log ERROR ("UDP Send Error: " ++ e) ;;
           self <- get ;;
           match sock self with
           | Some h => sock_close w h
           | None => ret tt
           end ;;
           set_sock None)
    else log ERROR ("Unknown action: " ++ action_str).

(** [def close(self)] *)
Definition close (w : World) : Eff t unit :=
  self <- get ;;
  match sock self with
  | Some h => sock_close w h ;; set_sock None
  | None => ret tt
  end.

(** The guard is Connected when a socket object is held. *)
Definition connected (self : t) : bool :=
  match sock self with Some _ => true | None => false end.

End WifiMotor.

(* ================================================================== *)
(** * The connectors, with the class of what is raised *)
(* ================================================================== *)

(** [SerialMotor._ensure_connection] and [SerialMotor.connect] of
    [serial_control.py], the device raising exceptions of either class.
    The object and its attributes are those of [SerialMotor]. *)
Module SerialMotorByClass.
Local Open Scope effc_scope.

Record World := {
  Serial_reply : string -> Z -> OutcomeC SerialMotor.Serial;
  write_reply : Handle -> string -> OutcomeC unit;
  close_reply : Handle -> OutcomeC unit
}.

(** [serial.Serial(port, baudrate, timeout=1)] *)
Definition serial_Serial (w : World) (p : string) (b : Z)
  : EffC SerialMotor.t SerialMotor.Serial :=
  callC (SerialOpen p b 1) (Serial_reply w p b).

(** [self.ser.write(data)]; on [None] the attribute lookup raises an
    [AttributeError]. *)
Definition ser_write (w : World) (data : string) : EffC SerialMotor.t unit :=
  self <- lift get ;;
  match SerialMotor.ser self with
  | Some s =>
      callC (SerialWrite (SerialMotor.fd s) data)
            (write_reply w (SerialMotor.fd s) data)
  | None => lift (raise "'NoneType' object has no attribute 'write'")
  end.

Definition ser_close (w : World) (s : SerialMotor.Serial)
  : EffC SerialMotor.t unit :=
  callC (SerialClose (SerialMotor.fd s)) (close_reply w (SerialMotor.fd s)).

(** [def _ensure_connection(self) -> bool] *)
Definition _ensure_connection (w : World) : EffC SerialMotor.t bool :=
  self <- lift get ;;
  if SerialMotor.needs_open self then
    except_Exception
      (s <- serial_Serial w (SerialMotor.port (SerialMotor.config self))
                          (SerialMotor.baudrate (SerialMotor.config self)) ;;
       lift (SerialMotor.set_ser (Some s)) ;;
       lift (log INFO ("Successfully opened Serial Port: "
                       ++ SerialMotor.port (SerialMotor.config self))) ;;
       retC true)
      (fun e =>
         lift (log ERROR ("Failed to open Serial Port "
                          ++ SerialMotor.port (SerialMotor.config self)
                          ++ ": " ++ e)) ;;
         lift (SerialMotor.set_ser None) ;;
         retC false)
  else retC true.

(** [async def connect(self, output_interface: MotorInput) -> None] *)
Definition connect (w : World) (output_interface : MotorInput)
  : EffC SerialMotor.t unit :=
  ok <- _ensure_connection w ;;
  if negb ok then retC tt
  else
    let action_str := py_str (action output_interface) in
    lift (log INFO ("Received Motor Command: " ++ action_str)) ;;
    let signal := dict_get signal_map action_str in
    if truthy signal then
      let sig := match signal with Some s => s | None => "" end in
      except_Exception
        (ser_write w (sig ++ nl) ;;
         lift (log INFO ("Executed: " ++ action_str
                         ++ " (Signal: " ++ sig ++ ")")))
        (fun e =>
           lift (log ERROR ("Serial Send Error: " ++ e)) ;;
           self <- lift get ;;
           match SerialMotor.ser self with
           | Some s => except_all (ser_close w s) (retC tt)
           | None => retC tt
           end ;;
           lift (SerialMotor.set_ser None))
    else lift (log ERROR ("Unknown action: " ++ action_str)).

(** The device of [SerialMotor.World], which raises instances of
    [Exception] only. *)
Definition of_Exceptions (w : SerialMotor.World) : World :=
  {| Serial_reply := fun p b => of_Exception (SerialMotor.Serial_reply w p b);
     write_reply := fun h d => of_Exception (SerialMotor.write_reply w h d);
     close_reply := fun h => of_Exception (SerialMotor.close_reply w h) |}.

End SerialMotorByClass.

(** [WifiMotor._ensure_connection] and [WifiMotor.connect] of
    [wifi_control.py], the operating system raising exceptions of either
    class.  The object and its attributes are those of [WifiMotor]. *)
Module WifiMotorByClass.
Local Open Scope effc_scope.

Record World := {
  socket_reply : OutcomeC Handle;
  settimeout_reply : Handle -> OutcomeC unit;
  sendto_reply : Handle -> string -> string -> Z -> OutcomeC unit;
  close_reply : Handle -> OutcomeC unit
}.

(** [self.sock.sendto(data, target)]; on [None] the attribute lookup
    raises an [AttributeError]. *)
Definition sock_sendto (w : World) (data : string) (ip : string) (p : Z)
  : EffC WifiMotor.t unit :=
  self <- lift get ;;
  match WifiMotor.sock self with
  | Some h => callC (SocketSendTo h data ip p) (sendto_reply w h data ip p)
  | None => lift (raise "'NoneType' object has no attribute 'sendto'")
  end.

Definition sock_close (w : World) (h : Handle) : EffC WifiMotor.t unit :=
  callC (SocketClose h) (close_reply w h).

(** [def _ensure_connection(self) -> bool] *)
Definition _ensure_connection (w : World) : EffC WifiMotor.t bool :=
  self <- lift get ;;
  match WifiMotor.sock self with
  | None =>
      except_Exception
        (h <- callC SocketCreate (socket_reply w) ;;
         lift (WifiMotor.set_sock (Some h)) ;;
         callC (SocketSetTimeout h) (settimeout_reply w h) ;;
         lift (log INFO "UDP Socket created successfully.") ;;
         retC true)
        (fun e =>
           lift (log ERROR ("Failed to create UDP socket: " ++ e)) ;;
           lift (WifiMotor.set_sock None) ;;
           retC false)
  | Some _ => retC true
  end.

(** [async def connect(self, output_interface: MotorInput) -> None] *)
Definition connect (w : World) (output_interface : MotorInput)
  : EffC WifiMotor.t unit :=
  ok <- _ensure_connection w ;;
  if negb ok then retC tt
  else
    let action_str := py_str (action output_interface) in
    lift (log INFO ("Received Motor Command: " ++ action_str)) ;;
    let signal := dict_get signal_map action_str in
    if truthy signal then
      let sig := match signal with Some s => s | None => "" end in
      except_Exception
        (self <- lift get ;;
         sock_sendto w sig (WifiMotor.ip_address (WifiMotor.config self))
                     (WifiMotor.port (WifiMotor.config self)) ;;
         lift (log INFO ("Sent UDP: " ++ sig)))
        (fun e =>
           lift (log ERROR ("UDP Send Error: " ++ e)) ;;
           self <- lift get ;;
           match WifiMotor.sock self with
           | Some h => sock_close w h
           | None => retC tt
           end ;;
           lift (WifiMotor.set_sock None))
    else lift (log ERROR ("Unknown action: " ++ action_str)).

(** The operating system of [WifiMotor.World], which raises instances
    of [Exception] only. *)
Definition of_Exceptions (w : WifiMotor.World) : World :=
  {| socket_reply := of_Exception (WifiMotor.socket_reply w);
     settimeout_reply := fun h => of_Exception (WifiMotor.settimeout_reply w h);
     sendto_reply :=
       fun h d ip p => of_Exception (WifiMotor.sendto_reply w h d ip p);
     close_reply := fun h => of_Exception (WifiMotor.close_reply w h) |}.

End WifiMotorByClass.

(* ================================================================== *)
(** * Strings: [str.strip()] *)
(* ================================================================== *)

(** [c.isspace()] for a code point below 256. *)
Definition py_isspace (c : ascii) : bool :=
  let n := nat_of_ascii c in
  ((9 <=? n)%nat && (n <=? 13)%nat) || ((28 <=? n)%nat && (n <=? 32)%nat)
  || (n =? 133)%nat || (n =? 160)%nat.

Definition string_rev (s : string) : string :=
  string_of_list_ascii (rev (list_ascii_of_string s)).

(** [s.lstrip()] *)
Fixpoint lstrip (s : string) : string :=
  match s with
  | EmptyString => EmptyString
  | String c s' => if py_isspace c then lstrip s' else s
  end.

(** [s.rstrip()] *)
Definition rstrip (s : string) : string := string_rev (lstrip (string_rev s)).

(** [s.strip()] *)
Definition strip (s : string) : string := rstrip (lstrip s).

(** Truth value of a [str]: only [""] is false. *)
Definition str_truthy (s : string) : bool := negb (String.eqb s "").

(** A blank line: empty, or white space only. *)
Definition blank (s : string) : bool :=
  forallb py_isspace (list_ascii_of_string s).

(* ================================================================== *)
(** * inputs/base and providers *)
(* ================================================================== *)

(** Modelled from the spec: [inputs.base.Message], the canonical
    text-buffer unit, a pair of a timestamp and a text.  The class is not
    among the sources; the code uses its two fields [timestamp] and
    [message]. *)
Record Message := { timestamp : Time; message : string }.

(** Modelled from the spec: [IOProvider.add_input], the provenance sink
    accepting a source label, a text and a timestamp.  It is a call on a
    collaborator that is recorded in the trace. *)
Definition add_input {S} (label text : string) (ts : Time) : Eff S unit :=
  emit (AddInput label text ts).

(** Modelled from the spec: [TeleopsConversationProvider.store_user_message],
    the conversation-log sink accepting the raw operator text. *)
Definition store_user_message {S} (text : string) : Eff S unit :=
  emit (StoreUserMessage text).

(** [l[-1]] of a non-empty list; [IndexError] on an empty one. *)
Definition py_last {A} (l : list A) : option A :=
  match rev l with
  | [] => None
  | x :: _ => Some x
  end.

(** [l[-1] = x] on a non-empty list. *)
Definition set_last {A} (l : list A) (x : A) : list A :=
  (removelast l ++ [x])%list.

(* ================================================================== *)
(** * inputs/plugins/esp32_control.py *)
(* ================================================================== *)

Module Esp32Control.

(** [class Esp32Control]: the attributes the methods read or assign.
    [message_buffer] is the [queue.Queue], oldest item first. *)
Record t := {
  running : bool;
  messages : list string;
  descriptor_for_LLM : string;
  message_buffer : list string
}.

(** [__init__] *)
Definition init : t :=
  {| running := true; messages := []; descriptor_for_LLM := "User";
     message_buffer := [] |}.

Definition set_running (b : bool) : Eff t unit :=
  modify (fun self =>
    {| running := b; messages := messages self;
       descriptor_for_LLM := descriptor_for_LLM self;
       message_buffer := message_buffer self |}).

Definition set_messages (l : list string) : Eff t unit :=
  modify (fun self =>
    {| running := running self; messages := l;
       descriptor_for_LLM := descriptor_for_LLM self;
       message_buffer := message_buffer self |}).

Definition set_message_buffer (q : list string) : Eff t unit :=
  modify (fun self =>
    {| running := running self; messages := messages self;
       descriptor_for_LLM := descriptor_for_LLM self;
       message_buffer := q |}).

(** [self.message_buffer.put(item)]: the queue is unbounded. *)
Definition queue_put (item : string) : Eff t unit :=
  self <- get ;;
  emit (QueuePut item) ;;
  set_message_buffer (message_buffer self ++ [item])%list.

(** [self.message_buffer.get_nowait()]: [None] stands for [queue.Empty]. *)
Definition queue_get_nowait : Eff t (option string) :=
  self <- get ;;
  match message_buffer self with
  | [] => ret None
  | item :: q => emit (QueueGet item) ;; set_message_buffer q ;; ret (Some item)
  end.

(** What a call of [input()] answers. *)
Inductive InputReply :=
| Line (user_input : string)
| EOFError
| InputException (e : string).

(** The body of the [while] loop of [_input_loop], [input()] having
    answered [r]; the result says whether the loop goes on ([false]
    after a [break]). *)
Definition _input_body (r : InputReply) : Eff t bool :=
  match r with
  | Line user_input =>
      emit (InputReturned user_input) ;;
      (if str_truthy (strip user_input) then
         queue_put user_input ;;
         emit (Print ("DEBUG: Input received: " ++ user_input))
       else ret tt) ;;
      ret true
  | EOFError => ret false
  | InputException e => log ERROR ("Input error: " ++ e) ;; ret false
  end.

(** [def _input_loop(self)], run alone on the answers [script] of
    [input()]; when the script is used up the thread is left blocked
    in [input()]. *)
Fixpoint _input_loop (script : list InputReply) : Eff t unit :=
  match script with
  | [] => ret tt
  | r :: rest =>
      self <- get ;;
      if running self then
        go_on <- _input_body r ;;
        if (go_on : bool) then _input_loop rest else ret tt
      else ret tt
  end.

(** [async def _poll(self)]: sleeps 0.1 s, then takes one item. *)
Definition _poll : Eff t (option string) :=
  emit (Sleep 1 10) ;;
  queue_get_nowait.

(** [async def _raw_to_text(self, raw_input)], the clock reading [now]. *)
Definition _raw_to_text (now : Time) (raw_input : option string)
  : Eff t (option Message) :=
  match raw_input with
  | None => ret None
  | Some raw => ret (Some {| timestamp := now; message := raw |})
  end.

(** [async def raw_to_text(self, raw_input)] *)
Definition raw_to_text (now : Time) (raw_input : option string) : Eff t unit :=
  pending_message <- _raw_to_text now raw_input ;;
  match pending_message with
  | Some m =>
      self <- get ;;
      match py_last (messages self) with
      | None => set_messages (messages self ++ [message m])%list
      | Some last =>
          set_messages (set_last (messages self) (last ++ " " ++ message m))
      end
  | None => ret tt
  end.

(** [def formatted_latest_buffer(self)], the clock reading [now]. *)
Definition formatted_latest_buffer (now : Time) : Eff t (option string) :=
  self <- get ;;
  match py_last (messages self) with
  | None => ret None
  | Some current_msg =>
      let result := "User Command: " ++ current_msg in
      add_input (descriptor_for_LLM self) current_msg now ;;
      store_user_message current_msg ;;
      set_messages [] ;;
      ret (Some result)
  end.

(** [def stop(self)] *)
Definition stop : Eff t unit := set_running false.

(** ** The input thread next to the scheduler

    The input thread and the scheduler interleave at the calls on the
    queue and on the [running] flag.  The thread is either about to
    test the flag, or blocked in [input()], or gone. *)
Inductive ThreadPc := AtWhile | InInput | Exited.

Record Sys := { self_of : t; pc : ThreadPc }.

(** Run a method on the object of the system. *)
Definition on_self {A} (m : Eff t A) : Eff Sys A :=
  fun sys =>
    let '(r, s', tr) := m (self_of sys) in
    (r, {| self_of := s'; pc := pc sys |}, tr).

Definition set_pc (p : ThreadPc) : Eff Sys unit :=
  modify (fun sys => {| self_of := self_of sys; pc := p |}).

(** One atomic step of the whole: the thread tests [self.running], or
    its pending [input()] answers and the loop body runs, or the
    scheduler runs [_poll()], or somebody calls [stop()].  A step of the
    thread that does not fit where the thread is does nothing. *)
Inductive Step :=
| TestRunning
| InputAnswers (r : InputReply)
| SchedulerPolls
| StopCalled.

Definition step (st : Step) : Eff Sys (option string) :=
  sys <- get ;;
  match st with
  | TestRunning =>
      match pc sys with
      | AtWhile =>
          set_pc (if running (self_of sys) then InInput else Exited) ;;
          ret None
      | _ => ret None
      end
  | InputAnswers r =>
      match pc sys with
      | InInput =>
          go_on <- on_self (_input_body r) ;;
          set_pc (if (go_on : bool) then AtWhile else Exited) ;;
          ret None
      | _ => ret None
      end
  | SchedulerPolls => on_self _poll
  | StopCalled => on_self stop ;; ret None
  end.

(** A run: the steps one after the other; the result lists what the
    polls returned, in order. *)
Fixpoint run (sched : list Step) : Eff Sys (list (option string)) :=
  match sched with
  | [] => ret []
  | st :: rest =>
      r <- step st ;;
      rs <- run rest ;;
      ret (match st with SchedulerPolls => r :: rs | _ => rs end)
  end.

Definition start : Sys := {| self_of := init; pc := AtWhile |}.

End Esp32Control.

(* ================================================================== *)
(** * inputs/plugins/esp32_cam_video.py *)
(* ================================================================== *)

Module Esp32CamVideo.

(** [class Esp32CamVideoConfig] *)
Record Esp32CamVideoConfig := {
  cfg_stream_url : string;
  cfg_stream_type : string;
  cfg_fps : Z;
  cfg_analyze_with_vlm : bool
}.

Definition default_config : Esp32CamVideoConfig :=
  {| cfg_stream_url := "http://192.168.1.100:81/stream";
     cfg_stream_type := "http";
     cfg_fps := 5;
     cfg_analyze_with_vlm := false |}.

(** A frame ([np.ndarray]): the code reads [shape[:2]] only. *)
Record Frame := { height : nat; width : nat }.

(** [class Esp32CamVideo]: [cap] is the capture object, by identity. *)
Record t := {
  stream_url : string;
  stream_type : string;
  fps : Z;
  analyze_with_vlm : bool;
  cap : option Handle;
  messages : list Message;
  descriptor_for_LLM : string
}.

(** What the surroundings answer during one method call:
    [cap.isOpened()], [cap.read()] and [cap.release()] return or raise;
    the clock gives [time.strftime("%H:%M:%S")] and [time.time()]. *)
Record World := {
  isOpened_reply : Handle -> Outcome bool;
  read_reply : Handle -> Outcome (bool * option Frame);
  release_reply : Handle -> Outcome unit;
  strftime_reply : string;
  time_reply : Time
}.

(** What the surroundings answer to [__init__], with the class of what
    they raise.  The two constructors that [__init__] calls outside its
    [try] and that are not among the sources, [super().__init__(config)]
    and [IOProvider()], return or raise; so do [cv2.VideoCapture(url)]
    and the [cap.isOpened()] of the constructor. *)
Record InitWorld := {
  base_init_reply : OutcomeC unit;
  VideoCapture_reply : string -> OutcomeC Handle;
  init_isOpened_reply : Handle -> OutcomeC bool;
  IOProvider_reply : OutcomeC unit
}.

(** A call inside the process, with its outcome: nothing is recorded. *)
Definition internal {A : Type} (reply : Outcome A) : Eff t A :=
  fun self => (reply, self, []).

Definition set_cap (v : option Handle) : Eff t unit :=
  modify (fun self =>
    {| stream_url := stream_url self; stream_type := stream_type self;
       fps := fps self; analyze_with_vlm := analyze_with_vlm self;
       cap := v; messages := messages self;
       descriptor_for_LLM := descriptor_for_LLM self |}).

Definition set_messages (l : list Message) : Eff t unit :=
  modify (fun self =>
    {| stream_url := stream_url self; stream_type := stream_type self;
       fps := fps self; analyze_with_vlm := analyze_with_vlm self;
       cap := cap self; messages := l;
       descriptor_for_LLM := descriptor_for_LLM self |}).

Definition cap_isOpened (w : World) (h : Handle) : Eff t bool :=
  call (CapIsOpened h) (isOpened_reply w h).

Definition cap_read (w : World) (h : Handle) : Eff t (bool * option Frame) :=
  call (CapRead h) (read_reply w h).

Definition cap_release (w : World) (h : Handle) : Eff t unit :=
  call (CapRelease h) (release_reply w h).

(** The attributes [__init__] assigns from the configuration, with no
    capture yet and the empty buffer. *)
Definition fresh (config : Esp32CamVideoConfig) : t :=
  {| stream_url := cfg_stream_url config;
     stream_type := cfg_stream_type config;
     fps := cfg_fps config;
     analyze_with_vlm := cfg_analyze_with_vlm config;
     cap := None; messages := [];
     descriptor_for_LLM := "ESP32-CAM Video" |}.

(** The [try] statement of [__init__]. *)
Definition init_capture (w : InitWorld) (config : Esp32CamVideoConfig)
  : EffC t unit :=
  (except_Exception
     (h <- callC (VideoCaptureOpen (cfg_stream_url config))
                 (VideoCapture_reply w (cfg_stream_url config)) ;;
      lift (set_cap (Some h)) ;;
      opened <- callC (CapIsOpened h) (init_isOpened_reply w h) ;;
      if (opened : bool) then
        lift (log INFO ("Connected to ESP32-CAM stream: "
                        ++ cfg_stream_url config))
      else
        lift (log ERROR ("Failed to open video stream: "
                         ++ cfg_stream_url config)))
     (fun e => lift (log ERROR ("Error connecting to video stream: " ++ e))))%effc.

(** [__init__]: the object made, or the exception that leaves the
    constructor, and the calls made. *)
Definition init (w : InitWorld) (config : Esp32CamVideoConfig)
  : OutcomeC t * list Event :=
  let body : EffC t unit :=
    (internalC (base_init_reply w) ;;
     init_capture w config ;;
     internalC (IOProvider_reply w))%effc in
  (match outcomeC (body (fresh config)) with
   | ReturnsC _ => ReturnsC (self_afterC (body (fresh config)))
   | RaisesC x => RaisesC x
   end,
   traceC (body (fresh config))).

(** The largest magnitude of an [int] that [float()] converts: from
    [2^1024 - 2^970] on, the conversion raises [OverflowError]. *)
Definition float_overflow_from : Z := (2 ^ 1024 - 2 ^ 970)%Z.

(** [1.0 / n] for an [int] [n]: the division returns (the quotient is
    kept as the pair of 1 and [n]) or raises. *)
Definition one_over (n : Z) : Outcome unit :=
  if (n =? 0)%Z then Raises "float division by zero"
  else if (float_overflow_from <=? Z.abs n)%Z
       then Raises "int too large to convert to float"
       else Returns tt.

(** [await asyncio.sleep(1.0 / self.fps)] *)
Definition sleep_one_frame : Eff t unit :=
  self <- get ;;
  internal (one_over (fps self)) ;;
  emit (Sleep 1 (fps self)).

(** [async def _poll(self)] *)
Definition _poll (w : World) : Eff t (option Frame) :=
  sleep_one_frame ;;
  self <- get ;;
  match cap self with
  | None => ret None
  | Some h =>
      opened <- cap_isOpened w h ;;
      if negb opened then ret None
      else
        rf <- cap_read w h ;;
        if (fst rf : bool) then ret (snd rf)
        else
          log WARNING "Failed to read frame from video stream" ;;
          ret None
  end.

Definition decimal (n : nat) : string := NilEmpty.string_of_uint (Nat.to_uint n).

(** [async def _raw_to_text(self, raw_input)] *)
Definition _raw_to_text (w : World) (raw_input : option Frame)
  : Eff t (option Message) :=
  match raw_input with
  | None => ret None
  | Some frame =>
      self <- get ;;
      let head := "Received video frame at " ++ strftime_reply w ++ " "
                  ++ "(" ++ decimal (width frame) ++ "x"
                  ++ decimal (height frame) ++ " pixels)." in
      let text :=
        if analyze_with_vlm self then head ++ " Ready for VLM analysis."
        else head ++ " Video stream active." in
      ret (Some {| timestamp := time_reply w; message := text |})
  end.

(** [async def raw_to_text(self, raw_input)] *)
Definition raw_to_text (w : World) (raw_input : option Frame) : Eff t unit :=
  pending_message <- _raw_to_text w raw_input ;;
  match pending_message with
  | Some m => self <- get ;; set_messages (messages self ++ [m])%list
  | None => ret tt
  end.

(** [self.__class__.__name__] *)
Definition class_name : string := "Esp32CamVideo".

(** [def formatted_latest_buffer(self)] *)
Definition formatted_latest_buffer : Eff t (option string) :=
  self <- get ;;
  match py_last (messages self) with
  | None => ret None
  | Some latest_message =>
      let result :=
        nl ++ "INPUT: " ++ descriptor_for_LLM self ++ nl
        ++ "// START" ++ nl
        ++ message latest_message ++ nl
        ++ "// END" ++ nl in
      add_input class_name (message latest_message)
                (timestamp latest_message) ;;
      set_messages [] ;;
      ret (Some result)
  end.

(** [def stop(self)] *)
Definition stop (w : World) : Eff t unit :=
  self <- get ;;
  match cap self with
  | None => ret tt
  | Some h =>
      opened <- cap_isOpened w h ;;
      if (opened : bool) then
        cap_release w h ;;
        log INFO "ESP32-CAM video stream stopped"
      else ret tt
  end.

End Esp32CamVideo.

Arguments Esp32CamVideo.one_over : simpl never.
Arguments Esp32CamVideo.float_overflow_from : simpl never.

(* ================================================================== *)
(** * States of the connection guard *)
(* ================================================================== *)

(** A connected serial connector and a connected UDP connector. *)
Definition serial_connected (cfg : SerialMotor.SerialMotorConfig) (h : Handle)
  : SerialMotor.t :=
  {| SerialMotor.config := cfg;
     SerialMotor.ser := Some {| SerialMotor.fd := h; SerialMotor.is_open := true |} |}.

Definition serial_disconnected (cfg : SerialMotor.SerialMotorConfig)
  : SerialMotor.t :=
  {| SerialMotor.config := cfg; SerialMotor.ser := None |}.

Definition wifi_connected (cfg : WifiMotor.WifiMotorConfig) (h : Handle)
  : WifiMotor.t :=
  {| WifiMotor.config := cfg; WifiMotor.sock := Some h |}.

Definition wifi_disconnected (cfg : WifiMotor.WifiMotorConfig) : WifiMotor.t :=
  {| WifiMotor.config := cfg; WifiMotor.sock := None |}.

(** Devices that give the same answer to every call of a kind. *)
Definition serial_world (opened : Outcome SerialMotor.Serial)
  (written closed : Outcome unit) : SerialMotor.World :=
  {| SerialMotor.Serial_reply := fun _ _ => opened;
     SerialMotor.write_reply := fun _ _ => written;
     SerialMotor.close_reply := fun _ => closed |}.

Definition udp_world (created : Outcome Handle)
  (timeout_set sent closed : Outcome unit) : WifiMotor.World :=
  {| WifiMotor.socket_reply := created;
     WifiMotor.settimeout_reply := fun _ => timeout_set;
     WifiMotor.sendto_reply := fun _ _ _ _ => sent;
     WifiMotor.close_reply := fun _ => closed |}.

(** The two local calls of the UDP guard, [socket.socket(...)] and
    [settimeout(1.0)], both return. *)
Definition local_socket_created (w : WifiMotor.World) : bool :=
  match WifiMotor.socket_reply w with
  | Returns h =>
      match WifiMotor.settimeout_reply w h with
      | Returns _ => true
      | Raises _ => false
      end
  | Raises _ => false
  end.

(* ================================================================== *)
(** * Reading traces *)
(* ================================================================== *)

(** The payloads written to the transport, in order. *)
Fixpoint writes (tr : list Event) : list string :=
  match tr with
  | [] => []
  | SerialWrite _ data :: tr' => data :: writes tr'
  | SocketSendTo _ data _ _ :: tr' => data :: writes tr'
  | _ :: tr' => writes tr'
  end.

(** The attempts to open a transport. *)
Definition is_open_attempt (ev : Event) : bool :=
  match ev with
  | SerialOpen _ _ _ | SocketCreate => true
  | _ => false
  end.

Definition opens (tr : list Event) : nat := length (filter is_open_attempt tr).

(** The messages logged at a level. *)
Fixpoint logged (lvl : Level) (tr : list Event) : list string :=
  match tr with
  | [] => []
  | Log l msg :: tr' =>
      match l, lvl with
      | INFO, INFO | WARNING, WARNING | ERROR, ERROR => msg :: logged lvl tr'
      | _, _ => logged lvl tr'
      end
  | _ :: tr' => logged lvl tr'
  end.

(** The lines [input()] returned, the items put on the queue and the
    items taken from it. *)
Fixpoint inputs (tr : list Event) : list string :=
  match tr with
  | [] => []
  | InputReturned s :: tr' => s :: inputs tr'
  | _ :: tr' => inputs tr'
  end.

Fixpoint puts (tr : list Event) : list string :=
  match tr with
  | [] => []
  | QueuePut s :: tr' => s :: puts tr'
  | _ :: tr' => puts tr'
  end.

Fixpoint gets (tr : list Event) : list string :=
  match tr with
  | [] => []
  | QueueGet s :: tr' => s :: gets tr'
  | _ :: tr' => gets tr'
  end.

(** The lines the input thread keeps: those that are not blank. *)
Definition keeps (s : string) : bool := negb (blank s).

(** What the polls of a run returned that was an item. *)
Fixpoint items (rs : list (option string)) : list string :=
  match rs with
  | [] => []
  | Some s :: rs' => s :: items rs'
  | None :: rs' => items rs'
  end.

(** The lines a script of answers of [input()] gives before the loop
    ends: up to the first end of input or error. *)
Fixpoint lines_before_end (script : list Esp32Control.InputReply) : list string :=
  match script with
  | Esp32Control.Line s :: rest => s :: lines_before_end rest
  | _ => []
  end.

(** Calls that touch the capture handle beyond asking and reading:
    opening a capture or releasing one. *)
Definition tears_down (ev : Event) : bool :=
  match ev with
  | CapRelease _ | VideoCaptureOpen _ => true
  | _ => false
  end.

(** [sub] occurs in [s]. *)
Definition occurs_in (sub s : string) : Prop :=
  exists before after, s = before ++ sub ++ after.

(* ================================================================== *)
(** * Sequences of calls *)
(* ================================================================== *)

(** Methods called one after the other on the same object; an exception
    ends the sequence. *)
Fixpoint in_turn {S : Type} (ms : list (Eff S unit)) : Eff S unit :=
  match ms with
  | [] => ret tt
  | m :: rest => m ;; in_turn rest
  end.

(** [" ".join(texts)] *)
Fixpoint join_space (texts : list string) : string :=
  match texts with
  | [] => ""
  | x :: rest =>
      match rest with
      | [] => x
      | _ :: _ => x ++ " " ++ join_space rest
      end
  end.

(** A call of a method of [Esp32Control] by its owner, or one pass of
    the body of the input loop. *)
Inductive ControlCall :=
| CallPoll
| CallRawToText (now : Time) (raw_input : option string)
| CallDrain (now : Time)
| CallStop
| CallInputBody (r : Esp32Control.InputReply).

Definition control_call (c : ControlCall) : Eff Esp32Control.t unit :=
  match c with
  | CallPoll => Esp32Control._poll ;; ret tt
  | CallRawToText now raw_input => Esp32Control.raw_to_text now raw_input
  | CallDrain now => Esp32Control.formatted_latest_buffer now ;; ret tt
  | CallStop => Esp32Control.stop
  | CallInputBody r => Esp32Control._input_body r ;; ret tt
  end.

(** The operator-command source produces the texts, each with the clock
    reading of its conversion. *)
Definition control_produce (texts : list (Time * string))
  : Eff Esp32Control.t unit :=
  in_turn (map (fun p => Esp32Control.raw_to_text (fst p) (Some (snd p))) texts).

(** Modelled from the spec: one poll cycle of the scheduler that owns a
    source ([inputs.base.loop], not among the sources): sample with
    [_poll], then hand the sample to [raw_to_text]. *)
Definition control_poll_cycle (now : Time) : Eff Esp32Control.t unit :=
  raw <- Esp32Control._poll ;; Esp32Control.raw_to_text now raw.

Definition control_poll_cycles (times : list Time) : Eff Esp32Control.t unit :=
  in_turn (map control_poll_cycle times).

(** The video source converts the frames, each under the answers the
    clock gives at its conversion. *)
Definition video_produce (frames : list (Esp32CamVideo.World * Esp32CamVideo.Frame))
  : Eff Esp32CamVideo.t unit :=
  in_turn (map (fun p => Esp32CamVideo.raw_to_text (fst p) (Some (snd p))) frames).

(** How many more lines the input thread can read once the [running]
    flag is cleared: the one it is blocked on, if any. *)
Definition pending_reads (sys : Esp32Control.Sys) : nat :=
  match Esp32Control.pc sys with
  | Esp32Control.InInput => 1
  | _ => 0
  end.

(** An [Esp32Control] object by its attributes. *)
Definition control_state (rn : bool) (ms : list string) (d : string)
  (q : list string) : Esp32Control.t :=
  {| Esp32Control.running := rn; Esp32Control.messages := ms;
     Esp32Control.descriptor_for_LLM := d; Esp32Control.message_buffer := q |}.

(** The Message [_raw_to_text] makes of a frame, under the answers of
    the clock. *)
Definition video_message (self : Esp32CamVideo.t)
  (p : Esp32CamVideo.World * Esp32CamVideo.Frame) : Message :=
  match outcome (Esp32CamVideo._raw_to_text (fst p) (Some (snd p)) self) with
  | Returns (Some m) => m
  | _ => {| timestamp := 0%Z; message := "" |}
  end.

(** An [Esp32CamVideo] object with another buffer. *)
Definition video_with_messages (self : Esp32CamVideo.t) (ms : list Message)
  : Esp32CamVideo.t :=
  {| Esp32CamVideo.stream_url := Esp32CamVideo.stream_url self;
     Esp32CamVideo.stream_type := Esp32CamVideo.stream_type self;
     Esp32CamVideo.fps := Esp32CamVideo.fps self;
     Esp32CamVideo.analyze_with_vlm := Esp32CamVideo.analyze_with_vlm self;
     Esp32CamVideo.cap := Esp32CamVideo.cap self;
     Esp32CamVideo.messages := ms;
     Esp32CamVideo.descriptor_for_LLM := Esp32CamVideo.descriptor_for_LLM self |}.

(** A camera that gives the same answers to every call; nothing
    raises. *)
Definition video_world (opened : bool)
  (frame_read : bool * option Esp32CamVideo.Frame) (hms : string) (now : Time)
  : Esp32CamVideo.World :=
  {| Esp32CamVideo.isOpened_reply := fun _ => Returns opened;
     Esp32CamVideo.read_reply := fun _ => Returns frame_read;
     Esp32CamVideo.release_reply := fun _ => Returns tt;
     Esp32CamVideo.strftime_reply := hms;
     Esp32CamVideo.time_reply := now |}.

(** The object [__init__] makes from a configuration when the capture
    constructor returned [h]. *)
Definition video_object (config : Esp32CamVideo.Esp32CamVideoConfig)
  (h : Handle) : Esp32CamVideo.t :=
  {| Esp32CamVideo.stream_url := Esp32CamVideo.cfg_stream_url config;
     Esp32CamVideo.stream_type := Esp32CamVideo.cfg_stream_type config;
     Esp32CamVideo.fps := Esp32CamVideo.cfg_fps config;
     Esp32CamVideo.analyze_with_vlm := Esp32CamVideo.cfg_analyze_with_vlm config;
     Esp32CamVideo.cap := Some h; Esp32CamVideo.messages := [];
     Esp32CamVideo.descriptor_for_LLM := "ESP32-CAM Video" |}.

(** Calls made on a capture object. *)
Definition on_capture (ev : Event) : bool :=
  match ev with
  | CapIsOpened _ | CapRead _ | CapRelease _ => true
  | _ => false
  end.

(** The number of calls of [close()] on a port or a socket. *)
Definition closes (tr : list Event) : nat :=
  length (filter (fun ev => match ev with
                            | SerialClose _ | SocketClose _ => true
                            | _ => false
                            end) tr).

(* ================================================================== *)
(** * Part II.  Properties *)
(* ================================================================== *)

(** Unfold the monad and compute. *)
Ltac run_eff :=
  cbv [bind try_except ret raise get put modify emit call log
       outcome self_after trace add_input store_user_message] in *;
  cbn in *.

(** Split on whatever the goal still matches on, innermost first. *)
Ltac split_match :=
  repeat (cbn in *; match goal with
    | |- context [match ?x with _ => _ end] =>
        lazymatch x with
        | context [match _ with _ => _ end] => fail
        | negb ?o => destruct o eqn:?
        | _ => destruct x eqn:?
        end
    end).

Ltac unfold_serial :=
  unfold SerialMotor.connect, SerialMotor.close, SerialMotor._ensure_connection,
    SerialMotor.serial_Serial, SerialMotor.ser_write, SerialMotor.ser_close,
    SerialMotor.set_ser, SerialMotor.needs_open, SerialMotor.connected in *.

Ltac unfold_wifi :=
  unfold WifiMotor.connect, WifiMotor.close, WifiMotor._ensure_connection,
    WifiMotor.sock_sendto, WifiMotor.sock_close, WifiMotor.set_sock,
    WifiMotor.connected in *.

(** ** The wire-code lookup *)

Lemma dict_get_member_str :
  forall a, dict_get signal_map (py_str (Member a)) = None.
Proof. destruct a; reflexivity. Qed.

Example str_of_member : py_str (Member FORWARD) = "MotorAction.FORWARD".
Proof. reflexivity. Qed.

Example lookup_by_value_and_by_str :
  dict_get signal_map "forward" = Some "F" /\
  dict_get signal_map (py_str (Member FORWARD)) = None.
Proof. split; reflexivity. Qed.

Lemma dict_get_value :
  forall a, dict_get signal_map (value a) = Some (code a).
Proof. destruct a; reflexivity. Qed.

Lemma dict_get_some_inv :
  forall key v,
    dict_get signal_map key = Some v ->
    exists a, key = value a /\ v = code a.
Proof.
  intros key v H. unfold signal_map in H. cbn [dict_get] in H.
  repeat match type of H with
    | (if String.eqb (value ?m) key then _ else _) = _ =>
        destruct (String.eqb_spec (value m) key) as [?E|?E]; cbv iota in H;
        [ exists m; split; [ symmetry; assumption | now inversion H ] | ]
    end.
  discriminate.
Qed.

Lemma dict_get_none_iff :
  forall key,
    dict_get signal_map key = None <-> (forall a, value a <> key).
Proof.
  intros key. split.
  - intros H a E. subst key. rewrite dict_get_value in H. discriminate.
  - intros H. destruct (dict_get signal_map key) eqn:E; [ | reflexivity ].
    apply dict_get_some_inv in E. destruct E as [a [E _]].
    exfalso. apply (H a). now symmetry.
Qed.

Lemma truthy_code : forall a, truthy (Some (code a)) = true.
Proof. destruct a; reflexivity. Qed.

(** The table of codes is one to one. *)
Lemma code_injective : forall a b, code a = code b -> a = b.
Proof. destruct a, b; cbn; intros H; try reflexivity; discriminate. Qed.

(** ** Connection guard: [_ensure_connection] *)

Lemma serial_ensure_connected :
  forall w self,
    SerialMotor.connected self = true ->
    SerialMotor._ensure_connection w self = (Returns true, self, []).
Proof.
  intros w self H. unfold SerialMotor.connected in H.
  apply negb_true_iff in H.
  unfold SerialMotor._ensure_connection. run_eff. now rewrite H.
Qed.

Lemma serial_ensure_open_ok :
  forall w self s,
    SerialMotor.needs_open self = true ->
    SerialMotor.Serial_reply w (SerialMotor.port (SerialMotor.config self))
      (SerialMotor.baudrate (SerialMotor.config self)) = Returns s ->
    SerialMotor._ensure_connection w self =
      (Returns true,
       {| SerialMotor.config := SerialMotor.config self;
          SerialMotor.ser := Some s |},
       [SerialOpen (SerialMotor.port (SerialMotor.config self))
                   (SerialMotor.baudrate (SerialMotor.config self)) 1;
        Log INFO ("Successfully opened Serial Port: "
                  ++ SerialMotor.port (SerialMotor.config self))]).
Proof.
  intros w self s Hn Hr.
  unfold SerialMotor._ensure_connection, SerialMotor.serial_Serial,
    SerialMotor.set_ser.
  run_eff. rewrite Hn, Hr. reflexivity.
Qed.

Lemma serial_ensure_open_fails :
  forall w self e,
    SerialMotor.needs_open self = true ->
    SerialMotor.Serial_reply w (SerialMotor.port (SerialMotor.config self))
      (SerialMotor.baudrate (SerialMotor.config self)) = Raises e ->
    SerialMotor._ensure_connection w self =
      (Returns false,
       {| SerialMotor.config := SerialMotor.config self;
          SerialMotor.ser := None |},
       [SerialOpen (SerialMotor.port (SerialMotor.config self))
                   (SerialMotor.baudrate (SerialMotor.config self)) 1;
        Log ERROR ("Failed to open Serial Port "
                   ++ SerialMotor.port (SerialMotor.config self)
                   ++ ": " ++ e)]).
Proof.
  intros w self e Hn Hr.
  unfold SerialMotor._ensure_connection, SerialMotor.serial_Serial,
    SerialMotor.set_ser.
  run_eff. rewrite Hn, Hr. reflexivity.
Qed.

Lemma wifi_ensure_connected :
  forall w self,
    WifiMotor.connected self = true ->
    WifiMotor._ensure_connection w self = (Returns true, self, []).
Proof.
  intros w [cfg [h|]] H; [ reflexivity | discriminate ].
Qed.

Lemma wifi_ensure_open_ok :
  forall w cfg h,
    WifiMotor.socket_reply w = Returns h ->
    WifiMotor.settimeout_reply w h = Returns tt ->
    WifiMotor._ensure_connection w
      {| WifiMotor.config := cfg; WifiMotor.sock := None |} =
      (Returns true,
       {| WifiMotor.config := cfg; WifiMotor.sock := Some h |},
       [SocketCreate; SocketSetTimeout h;
        Log INFO "UDP Socket created successfully."]).
Proof.
  intros w cfg h Hs Ht.
  unfold WifiMotor._ensure_connection, WifiMotor.set_sock.
  run_eff. rewrite Hs. cbn. rewrite Ht. reflexivity.
Qed.

Lemma wifi_ensure_socket_raises :
  forall w cfg e,
    WifiMotor.socket_reply w = Raises e ->
    WifiMotor._ensure_connection w
      {| WifiMotor.config := cfg; WifiMotor.sock := None |} =
      (Returns false,
       {| WifiMotor.config := cfg; WifiMotor.sock := None |},
       [SocketCreate; Log ERROR ("Failed to create UDP socket: " ++ e)]).
Proof.
  intros w cfg e Hs.
  unfold WifiMotor._ensure_connection, WifiMotor.set_sock.
  run_eff. rewrite Hs. reflexivity.
Qed.

Lemma wifi_ensure_settimeout_raises :
  forall w cfg h e,
    WifiMotor.socket_reply w = Returns h ->
    WifiMotor.settimeout_reply w h = Raises e ->
    WifiMotor._ensure_connection w
      {| WifiMotor.config := cfg; WifiMotor.sock := None |} =
      (Returns false,
       {| WifiMotor.config := cfg; WifiMotor.sock := None |},
       [SocketCreate; SocketSetTimeout h;
        Log ERROR ("Failed to create UDP socket: " ++ e)]).
Proof.
  intros w cfg h e Hs Ht.
  unfold WifiMotor._ensure_connection, WifiMotor.set_sock.
  run_eff. rewrite Hs. cbn. rewrite Ht. reflexivity.
Qed.

(** ** Command dispatcher: [connect] *)

(** A member of the enumeration is never written, whatever the state of
    the connector and whatever the device answers. *)
Lemma serial_member_no_write :
  forall c w self,
    writes (trace (SerialMotor.connect w {| action := Member c |} self)) = [].
Proof.
  intros c w [cfg [[h o]|]]; destruct c;
    unfold_serial; run_eff; split_match; reflexivity.
Qed.

Lemma wifi_member_no_write :
  forall c w self,
    writes (trace (WifiMotor.connect w {| action := Member c |} self)) = [].
Proof.
  intros c w [cfg [h|]]; destruct c;
    unfold_wifi; run_eff; split_match; reflexivity.
Qed.

(** When the action attribute holds the member's value as a plain [str],
    a connected connector makes exactly one write, of the code framed for
    its transport. *)
Lemma serial_plain_value_one_write :
  forall c w cfg h,
    writes (trace (SerialMotor.connect w {| action := Plain (value c) |}
                     (serial_connected cfg h))) = [code c ++ nl].
Proof.
  intros c w cfg h; destruct c;
    unfold serial_connected; unfold_serial; run_eff; split_match; reflexivity.
Qed.

Lemma wifi_plain_value_one_write :
  forall c w cfg h,
    writes (trace (WifiMotor.connect w {| action := Plain (value c) |}
                     (wifi_connected cfg h))) = [code c].
Proof.
  intros c w cfg h; destruct c;
    unfold wifi_connected; unfold_wifi; run_eff; split_match; reflexivity.
Qed.

(** A directive that is no member's value is reported and not sent. *)
Lemma serial_unknown_directive :
  forall s w cfg h,
    (forall a, value a <> s) ->
    SerialMotor.connect w {| action := Plain s |} (serial_connected cfg h) =
      (Returns tt, serial_connected cfg h,
       [Log INFO ("Received Motor Command: " ++ s);
        Log ERROR ("Unknown action: " ++ s)]).
Proof.
  intros s w cfg h H. apply dict_get_none_iff in H.
  unfold serial_connected. unfold_serial. run_eff. rewrite H. reflexivity.
Qed.

Lemma wifi_unknown_directive :
  forall s w cfg h,
    (forall a, value a <> s) ->
    WifiMotor.connect w {| action := Plain s |} (wifi_connected cfg h) =
      (Returns tt, wifi_connected cfg h,
       [Log INFO ("Received Motor Command: " ++ s);
        Log ERROR ("Unknown action: " ++ s)]).
Proof.
  intros s w cfg h H. apply dict_get_none_iff in H.
  unfold wifi_connected. unfold_wifi. run_eff. rewrite H. reflexivity.
Qed.

(** C1.  The claim: dispatching any member of the enumeration on a
    connected connector makes exactly one write, of the member's code
    (followed by a line feed on the serial line, bare on UDP).  The code
    does not: the key of the look-up is [str(action)], which for a member
    is ["MotorAction.<NAME>"], no key of [signal_map]; the connector logs
    "Unknown action" and writes nothing, for each of the five members, on
    both transports.  The repository's tests ask for the write
    ([write.assert_called_once_with(b"F\n")]). *)
Theorem C1_member_dispatch_makes_no_write :
  forall (c : MotorAction),
    (forall w cfg h,
        SerialMotor.connect w {| action := Member c |} (serial_connected cfg h) =
          (Returns tt, serial_connected cfg h,
           [Log INFO ("Received Motor Command: MotorAction." ++ name c);
            Log ERROR ("Unknown action: MotorAction." ++ name c)])) /\
    (forall w cfg h,
        WifiMotor.connect w {| action := Member c |} (wifi_connected cfg h) =
          (Returns tt, wifi_connected cfg h,
           [Log INFO ("Received Motor Command: MotorAction." ++ name c);
            Log ERROR ("Unknown action: MotorAction." ++ name c)])).
Proof.
  intros c; split; intros w cfg h; destruct c; reflexivity.
Qed.

(** C2.  The claim: the look-up in [signal_map] by the stringified action
    succeeds for every member of [MotorAction].  In the code it fails for
    every member: [str] of a member is no member's value.  (The look-up
    does succeed on the five values, [dict_get_value], and a directive
    that is no value is reported and not sent,
    [serial_unknown_directive] and [wifi_unknown_directive].) *)
Theorem C2_member_lookup_fails :
  forall (a : MotorAction),
    dict_get signal_map (py_str (action {| action := Member a |})) = None /\
    truthy (dict_get signal_map (py_str (action {| action := Member a |}))) = false.
Proof.
  intros a. cbn [action]. rewrite dict_get_member_str. split; reflexivity.
Qed.

(** ** Write failure and discard *)

(** Serial line: a failed write closes the port, forgets it and returns;
    a failing [close()] is swallowed. *)
Lemma serial_write_failure_discards :
  forall c w cfg h e,
    SerialMotor.write_reply w h (code c ++ nl) = Raises e ->
    let r := SerialMotor.connect w {| action := Plain (value c) |}
               (serial_connected cfg h) in
    outcome r = Returns tt /\
    self_after r = serial_disconnected cfg /\
    writes (trace r) = [code c ++ nl] /\
    trace r = [Log INFO ("Received Motor Command: " ++ value c);
               SerialWrite h (code c ++ nl);
               Log ERROR ("Serial Send Error: " ++ e);
               SerialClose h].
Proof.
  intros c w cfg h e Hw.
  destruct c; cbn [code value] in *;
    unfold serial_connected, serial_disconnected; unfold_serial; run_eff;
    rewrite Hw; cbn; destruct (SerialMotor.close_reply w h); cbn; auto.
Qed.

(** After the discard the next [_ensure_connection] asks for a new port:
    its first call on the device is [serial.Serial(...)]. *)
Lemma serial_ensure_after_discard_opens :
  forall w cfg,
    exists rest,
      trace (SerialMotor._ensure_connection w (serial_disconnected cfg)) =
        SerialOpen (SerialMotor.port cfg) (SerialMotor.baudrate cfg) 1 :: rest /\
      opens (trace (SerialMotor._ensure_connection w (serial_disconnected cfg))) = 1.
Proof.
  intros w cfg. unfold serial_disconnected. unfold_serial. run_eff.
  destruct (SerialMotor.Serial_reply w _ _); cbn; eexists; split; reflexivity.
Qed.

(** UDP: the same, as long as [close()] returns. *)
Lemma wifi_write_failure_discards_when_close_returns :
  forall c w cfg h e,
    WifiMotor.sendto_reply w h (code c) (WifiMotor.ip_address cfg)
      (WifiMotor.port cfg) = Raises e ->
    WifiMotor.close_reply w h = Returns tt ->
    let r := WifiMotor.connect w {| action := Plain (value c) |}
               (wifi_connected cfg h) in
    outcome r = Returns tt /\
    self_after r = wifi_disconnected cfg /\
    writes (trace r) = [code c] /\
    trace r = [Log INFO ("Received Motor Command: " ++ value c);
               SocketSendTo h (code c) (WifiMotor.ip_address cfg)
                 (WifiMotor.port cfg);
               Log ERROR ("UDP Send Error: " ++ e);
               SocketClose h].
Proof.
  intros c w cfg h e Hs Hc.
  destruct c; cbn [code value] in *;
    unfold wifi_connected, wifi_disconnected; unfold_wifi; run_eff;
    rewrite Hs; cbn; rewrite Hc; cbn; auto.
Qed.

Lemma wifi_ensure_after_discard_opens :
  forall w cfg,
    exists rest,
      trace (WifiMotor._ensure_connection w (wifi_disconnected cfg)) =
        SocketCreate :: rest /\
      opens (trace (WifiMotor._ensure_connection w (wifi_disconnected cfg))) = 1.
Proof.
  intros w cfg. unfold wifi_disconnected. unfold_wifi. run_eff.
  destruct (WifiMotor.socket_reply w) as [h|e]; cbn;
    [ destruct (WifiMotor.settimeout_reply w h); cbn | ];
    eexists; split; reflexivity.
Qed.

(** UDP, when [close()] raises in the handler of the failed send: the
    exception leaves [connect], and [self.sock = None] is not reached. *)
Lemma wifi_write_failure_close_raises :
  forall c w cfg h e e',
    WifiMotor.sendto_reply w h (code c) (WifiMotor.ip_address cfg)
      (WifiMotor.port cfg) = Raises e ->
    WifiMotor.close_reply w h = Raises e' ->
    WifiMotor.connect w {| action := Plain (value c) |} (wifi_connected cfg h) =
      (Raises e', wifi_connected cfg h,
       [Log INFO ("Received Motor Command: " ++ value c);
        SocketSendTo h (code c) (WifiMotor.ip_address cfg) (WifiMotor.port cfg);
        Log ERROR ("UDP Send Error: " ++ e);
        SocketClose h]).
Proof.
  intros c w cfg h e e' Hs Hc.
  destruct c; cbn [code value] in *;
    unfold wifi_connected; unfold_wifi; run_eff;
    rewrite Hs; cbn; rewrite Hc; reflexivity.
Qed.

(** C3.  The claim: on both connectors a failed write leaves the guard
    Disconnected, drops the command, lets no exception reach the caller,
    and the next [_ensure_connection] opens anew.  The serial connector
    does so ([serial_write_failure_discards],
    [serial_ensure_after_discard_opens]), and so does the UDP connector
    when [close()] returns.  The UDP handler calls [self.sock.close()]
    outside any [try]: when the send fails and the close fails too, the
    exception of the close leaves [connect], the socket stays in
    [self.sock], and the next [_ensure_connection] returns [True] on the
    stale socket without creating one. *)
Theorem C3_udp_failed_write_failed_close :
  forall cfg h e e',
    let w := udp_world (Returns (S h)) (Returns tt) (Raises e) (Raises e') in
    let r := WifiMotor.connect w {| action := Plain "forward" |}
               (wifi_connected cfg h) in
    outcome r = Raises e' /\
    self_after r = wifi_connected cfg h /\
    writes (trace r) = ["F"] /\
    (forall w', WifiMotor._ensure_connection w' (self_after r) =
                  (Returns true, wifi_connected cfg h, [])).
Proof.
  intros cfg h e e' w r. repeat split.
Qed.

(** ** Discard and [close()] *)

(** Closing a connector that holds no transport does nothing. *)
Lemma close_when_disconnected_is_noop :
  (forall w cfg, SerialMotor.close w (serial_disconnected cfg) =
                   (Returns tt, serial_disconnected cfg, [])) /\
  (forall w cfg, WifiMotor.close w (wifi_disconnected cfg) =
                   (Returns tt, wifi_disconnected cfg, [])).
Proof. split; reflexivity. Qed.

(** [close()] on a connected connector whose transport closes. *)
Lemma close_when_connected :
  (forall w cfg h,
      SerialMotor.close_reply w h = Returns tt ->
      SerialMotor.close w (serial_connected cfg h) =
        (Returns tt, serial_disconnected cfg, [SerialClose h])) /\
  (forall w cfg h,
      WifiMotor.close_reply w h = Returns tt ->
      WifiMotor.close w (wifi_connected cfg h) =
        (Returns tt, wifi_disconnected cfg, [SocketClose h])).
Proof.
  split; intros w cfg h H;
    unfold serial_connected, wifi_connected; unfold_serial; unfold_wifi;
    run_eff; rewrite H; reflexivity.
Qed.

(** The clean-up of the serial connector after a failed write swallows a
    failing [close()]. *)
Lemma serial_cleanup_swallows_close_failure :
  forall cfg h e e',
    SerialMotor.connect (serial_world (Raises e) (Raises e) (Raises e'))
      {| action := Plain "forward" |} (serial_connected cfg h) =
      (Returns tt, serial_disconnected cfg,
       [Log INFO "Received Motor Command: forward";
        SerialWrite h ("F" ++ nl);
        Log ERROR ("Serial Send Error: " ++ e);
        SerialClose h]).
Proof. reflexivity. Qed.

(** C7.  The claim: discarding a handle never lets an exception reach
    the caller, in the clean-up after a failed write and in [close()],
    also when the underlying close fails.  Only the clean-up of the serial
    connector has the [try ... except: pass]
    ([serial_cleanup_swallows_close_failure]).  In [WifiMotor.close],
    [SerialMotor.close] and the clean-up of [WifiMotor.connect] a failing
    close raises to the caller and the handle stays in place. *)
Theorem C7_failing_close_reaches_the_caller :
  forall cfg_w cfg_s h e e',
    WifiMotor.close (udp_world (Returns (S h)) (Returns tt) (Returns tt) (Raises e'))
      (wifi_connected cfg_w h) =
      (Raises e', wifi_connected cfg_w h, [SocketClose h]) /\
    SerialMotor.close (serial_world (Raises e) (Returns tt) (Raises e'))
      (serial_connected cfg_s h) =
      (Raises e', serial_connected cfg_s h, [SerialClose h]) /\
    outcome (WifiMotor.connect
               (udp_world (Returns (S h)) (Returns tt) (Raises e) (Raises e'))
               {| action := Plain "stop" |} (wifi_connected cfg_w h)) = Raises e'.
Proof.
  intros. repeat split.
Qed.

(** ** Idempotence of the guard *)

(** Two calls in a row starting Disconnected, the open succeeding with an
    open port: one attempt to open in all. *)
Lemma serial_ensure_twice :
  forall w1 w2 self s,
    SerialMotor.connected self = false ->
    SerialMotor.Serial_reply w1 (SerialMotor.port (SerialMotor.config self))
      (SerialMotor.baudrate (SerialMotor.config self)) = Returns s ->
    SerialMotor.is_open s = true ->
    let r1 := SerialMotor._ensure_connection w1 self in
    let r2 := SerialMotor._ensure_connection w2 (self_after r1) in
    outcome r1 = Returns true /\
    SerialMotor.connected (self_after r1) = true /\
    r2 = (Returns true, self_after r1, []) /\
    opens (trace r1 ++ trace r2) = 1.
Proof.
  intros w1 w2 self s Hd Hr Ho r1 r2.
  assert (Hn : SerialMotor.needs_open self = true).
  { unfold SerialMotor.connected in Hd. now apply negb_false_iff in Hd. }
  subst r2 r1. rewrite (serial_ensure_open_ok w1 self s Hn Hr).
  cbn [self_after outcome trace fst snd].
  assert (Hc : SerialMotor.connected
                 {| SerialMotor.config := SerialMotor.config self;
                    SerialMotor.ser := Some s |} = true).
  { unfold SerialMotor.connected, SerialMotor.needs_open. cbn. now rewrite Ho. }
  rewrite (serial_ensure_connected w2 _ Hc).
  repeat split; auto.
Qed.

Lemma wifi_ensure_twice :
  forall w1 w2 cfg h,
    WifiMotor.socket_reply w1 = Returns h ->
    WifiMotor.settimeout_reply w1 h = Returns tt ->
    let r1 := WifiMotor._ensure_connection w1 (wifi_disconnected cfg) in
    let r2 := WifiMotor._ensure_connection w2 (self_after r1) in
    outcome r1 = Returns true /\
    WifiMotor.connected (self_after r1) = true /\
    r2 = (Returns true, self_after r1, []) /\
    opens (trace r1 ++ trace r2) = 1.
Proof.
  intros w1 w2 cfg h Hs Ht r1 r2. subst r2 r1. unfold wifi_disconnected.
  rewrite (wifi_ensure_open_ok w1 cfg h Hs Ht).
  repeat split; auto.
Qed.

(** C4.  [_ensure_connection] is idempotent, on both connectors.
    (1) Connected: it returns [True] at once, with no call on the outside
    world and the object unchanged.  (2) Disconnected and the open
    succeeds (an open port, a socket whose timeout is set): it returns
    [True], the guard is Connected, and a second call in succession
    returns [True] without opening, so the two calls open the transport
    exactly once.  (3) Disconnected and the open raises: it returns
    [False] and the guard stays Disconnected. *)
Theorem C4_ensure_open_idempotent :
  (forall w self,
      SerialMotor.connected self = true ->
      SerialMotor._ensure_connection w self = (Returns true, self, [])) /\
  (forall w1 w2 self s,
      SerialMotor.connected self = false ->
      SerialMotor.Serial_reply w1 (SerialMotor.port (SerialMotor.config self))
        (SerialMotor.baudrate (SerialMotor.config self)) = Returns s ->
      SerialMotor.is_open s = true ->
      let r1 := SerialMotor._ensure_connection w1 self in
      let r2 := SerialMotor._ensure_connection w2 (self_after r1) in
      outcome r1 = Returns true /\
      SerialMotor.connected (self_after r1) = true /\
      r2 = (Returns true, self_after r1, []) /\
      opens (trace r1 ++ trace r2) = 1) /\
  (forall w self e,
      SerialMotor.connected self = false ->
      SerialMotor.Serial_reply w (SerialMotor.port (SerialMotor.config self))
        (SerialMotor.baudrate (SerialMotor.config self)) = Raises e ->
      let r := SerialMotor._ensure_connection w self in
      outcome r = Returns false /\
      SerialMotor.ser (self_after r) = None /\
      SerialMotor.connected (self_after r) = false) /\
  (forall w self,
      WifiMotor.connected self = true ->
      WifiMotor._ensure_connection w self = (Returns true, self, [])) /\
  (forall w1 w2 cfg h,
      WifiMotor.socket_reply w1 = Returns h ->
      WifiMotor.settimeout_reply w1 h = Returns tt ->
      let r1 := WifiMotor._ensure_connection w1 (wifi_disconnected cfg) in
      let r2 := WifiMotor._ensure_connection w2 (self_after r1) in
      outcome r1 = Returns true /\
      WifiMotor.connected (self_after r1) = true /\
      r2 = (Returns true, self_after r1, []) /\
      opens (trace r1 ++ trace r2) = 1) /\
  (forall w cfg,
      local_socket_created w = false ->
      let r := WifiMotor._ensure_connection w (wifi_disconnected cfg) in
      outcome r = Returns false /\
      WifiMotor.sock (self_after r) = None /\
      WifiMotor.connected (self_after r) = false).
Proof.
  split; [ exact serial_ensure_connected | ].
  split; [ exact serial_ensure_twice | ].
  split.
  { intros w self e Hd Hr r.
    assert (Hn : SerialMotor.needs_open self = true).
    { unfold SerialMotor.connected in Hd. now apply negb_false_iff in Hd. }
    subst r. rewrite (serial_ensure_open_fails w self e Hn Hr).
    repeat split. }
  split; [ exact wifi_ensure_connected | ].
  split; [ exact wifi_ensure_twice | ].
  intros w cfg Hl r. subst r. unfold local_socket_created in Hl.
  destruct (WifiMotor.socket_reply w) as [h|e] eqn:Hs.
  - destruct (WifiMotor.settimeout_reply w h) as [[]|e] eqn:Ht;
      [ discriminate | ].
    unfold wifi_disconnected.
    rewrite (wifi_ensure_settimeout_raises w cfg h e Hs Ht). repeat split.
  - unfold wifi_disconnected.
    rewrite (wifi_ensure_socket_raises w cfg e Hs). repeat split.
Qed.

(** The hypotheses of C4 hold together: a serial connector on COM3 whose
    port opens, then a second call. *)
Lemma C4_ensure_open_idempotent_witness :
  let w := serial_world
             (Returns {| SerialMotor.fd := 1; SerialMotor.is_open := true |})
             (Returns tt) (Returns tt) in
  let self := serial_disconnected SerialMotor.default_config in
  let r1 := SerialMotor._ensure_connection w self in
  let r2 := SerialMotor._ensure_connection w (self_after r1) in
  outcome r1 = Returns true /\
  SerialMotor.connected (self_after r1) = true /\
  r2 = (Returns true, self_after r1, []) /\
  opens (trace r1 ++ trace r2) = 1.
Proof.
  intros w self.
  exact (proj1 (proj2 C4_ensure_open_idempotent) w w self
           {| SerialMotor.fd := 1; SerialMotor.is_open := true |}
           eq_refl eq_refl eq_refl).
Defined.

(** ** The UDP guard is local *)

(** C10.  [WifiMotor._ensure_connection] performs no I/O toward the
    configured endpoint: for any two configurations (address and port) it
    gives the same result, the same [sock] and makes the same calls, none
    of them a send; it never raises; it returns [True] exactly when a
    socket object is already held or the local creation (the calls
    [socket.socket(...)] and [settimeout(1.0)]) succeeds, and [False]
    exactly when no socket is held and that local creation raises.  An
    address error shows at send time: with a socket held, the reply of
    [sendto] for the configured address is the first place where the
    address matters. *)
Theorem C10_udp_ensure_is_local :
  forall (w : WifiMotor.World) (cfg cfg' : WifiMotor.WifiMotorConfig)
         (sk : option Handle),
    let r := WifiMotor._ensure_connection w
               {| WifiMotor.config := cfg; WifiMotor.sock := sk |} in
    let r' := WifiMotor._ensure_connection w
                {| WifiMotor.config := cfg'; WifiMotor.sock := sk |} in
    outcome r = outcome r' /\
    trace r = trace r' /\
    WifiMotor.sock (self_after r) = WifiMotor.sock (self_after r') /\
    WifiMotor.config (self_after r) = cfg /\
    writes (trace r) = [] /\
    (exists b, outcome r = Returns b) /\
    (outcome r = Returns true <->
       (exists h, sk = Some h) \/ local_socket_created w = true) /\
    (outcome r = Returns false <->
       sk = None /\ local_socket_created w = false) /\
    (forall h e data,
        sk = Some h ->
        WifiMotor.sendto_reply w h data (WifiMotor.ip_address cfg)
          (WifiMotor.port cfg) = Raises e ->
        outcome r = Returns true /\
        outcome (WifiMotor.sock_sendto w data (WifiMotor.ip_address cfg)
                   (WifiMotor.port cfg) (self_after r)) = Raises e).
Proof.
  intros w cfg cfg' sk r r'. subst r r'.
  unfold local_socket_created. unfold_wifi. run_eff.
  destruct sk as [h0|]; cbn.
  - repeat match goal with |- _ /\ _ => split end; eauto; try discriminate.
    + split; [ eauto | reflexivity ].
    + split; [ discriminate | intros [H _]; discriminate ].
    + intros h e data H Hs. inversion H; subst. rewrite Hs. split; reflexivity.
  - destruct (WifiMotor.socket_reply w) as [h|e]; cbn;
      [ destruct (WifiMotor.settimeout_reply w h) as [[]|e]; cbn | ];
      repeat match goal with |- _ /\ _ => split end; eauto;
      try discriminate;
      try (split; [ discriminate | intros [H|H]; [ destruct H | ]; discriminate ]);
      try (split; [ discriminate | intros [_ H]; discriminate ]);
      try (split; [ auto | reflexivity ]);
      try (split; [ reflexivity | auto ]).
Qed.

(** C10 on a run: a socket is held, the address is not routable; the
    guard answers [True] and the send raises. *)
Lemma C10_udp_ensure_is_local_witness :
  let w := udp_world (Returns 4) (Returns tt)
             (Raises "[Errno 101] Network is unreachable") (Returns tt) in
  let cfg := {| WifiMotor.ip_address := "203.0.113.9"; WifiMotor.port := 8888 |} in
  let r := WifiMotor._ensure_connection w (wifi_connected cfg 3) in
  outcome r = Returns true /\
  outcome (WifiMotor.sock_sendto w "F" (WifiMotor.ip_address cfg)
             (WifiMotor.port cfg) (self_after r)) =
    Raises "[Errno 101] Network is unreachable".
Proof.
  intros w cfg.
  exact (proj2 (proj2 (proj2 (proj2 (proj2 (proj2 (proj2 (proj2
           (C10_udp_ensure_is_local w cfg cfg (Some 3)))))))))
           3 "[Errno 101] Network is unreachable" "F" eq_refl eq_refl).
Defined.

(** ** [str.strip()] and blank lines *)

Lemma lstrip_empty_iff_blank :
  forall s, lstrip s = EmptyString <-> blank s = true.
Proof.
  induction s as [|c s IH]; cbn.
  - split; reflexivity.
  - unfold blank in *. cbn. destruct (py_isspace c); cbn.
    + exact IH.
    + split; discriminate.
Qed.

Lemma blank_lstrip : forall s, blank (lstrip s) = blank s.
Proof.
  induction s as [|c s IH]; cbn [lstrip]; [ reflexivity | ].
  destruct (py_isspace c) eqn:E.
  - rewrite IH. unfold blank. cbn. now rewrite E.
  - reflexivity.
Qed.

Lemma forallb_rev :
  forall (A : Type) (f : A -> bool) (l : list A),
    forallb f (rev l) = forallb f l.
Proof.
  intros A f l. induction l as [|x l IH]; cbn; [ reflexivity | ].
  rewrite forallb_app, IH. cbn. rewrite andb_true_r. apply andb_comm.
Qed.

Lemma blank_string_rev : forall s, blank (string_rev s) = blank s.
Proof.
  intros s. unfold blank, string_rev.
  rewrite list_ascii_of_string_of_list_ascii. apply forallb_rev.
Qed.

Lemma string_rev_empty_iff :
  forall s, string_rev s = EmptyString <-> s = EmptyString.
Proof.
  intros s. unfold string_rev. split.
  - intros H. destruct s as [|c s]; [ reflexivity | ].
    apply (f_equal list_ascii_of_string) in H.
    rewrite list_ascii_of_string_of_list_ascii in H. cbn in H.
    destruct (rev (list_ascii_of_string s)); discriminate.
  - intros ->. reflexivity.
Qed.

Lemma rstrip_empty_iff_blank :
  forall s, rstrip s = EmptyString <-> blank s = true.
Proof.
  intros s. unfold rstrip.
  rewrite string_rev_empty_iff, lstrip_empty_iff_blank.
  now rewrite blank_string_rev.
Qed.

(** [s.strip()] is empty exactly on the blank lines. *)
Lemma strip_empty_iff_blank :
  forall s, strip s = EmptyString <-> blank s = true.
Proof.
  intros s. unfold strip.
  rewrite rstrip_empty_iff_blank. now rewrite blank_lstrip.
Qed.

Lemma str_truthy_strip : forall s, str_truthy (strip s) = negb (blank s).
Proof.
  intros s. unfold str_truthy.
  destruct (String.eqb_spec (strip s) "") as [E|E].
  - apply strip_empty_iff_blank in E. now rewrite E.
  - destruct (blank s) eqn:B; [ | reflexivity ].
    apply strip_empty_iff_blank in B. contradiction.
Qed.

(** ** Traces split along concatenation *)

Lemma inputs_app :
  forall t1 t2, inputs (t1 ++ t2) = (inputs t1 ++ inputs t2)%list.
Proof.
  induction t1 as [|[] t1 IH]; intros t2; cbn; rewrite ?IH; reflexivity.
Qed.

Lemma puts_app :
  forall t1 t2, puts (t1 ++ t2) = (puts t1 ++ puts t2)%list.
Proof.
  induction t1 as [|[] t1 IH]; intros t2; cbn; rewrite ?IH; reflexivity.
Qed.

Lemma gets_app :
  forall t1 t2, gets (t1 ++ t2) = (gets t1 ++ gets t2)%list.
Proof.
  induction t1 as [|[] t1 IH]; intros t2; cbn; rewrite ?IH; reflexivity.
Qed.

(** ** The thread bridge *)

Ltac unfold_control :=
  unfold Esp32Control.step, Esp32Control.on_self, Esp32Control.set_pc,
    Esp32Control._input_body, Esp32Control._poll, Esp32Control.stop,
    Esp32Control.queue_put, Esp32Control.queue_get_nowait,
    Esp32Control.set_message_buffer, Esp32Control.set_running,
    Esp32Control.set_messages, Esp32Control.raw_to_text,
    Esp32Control._raw_to_text, Esp32Control.formatted_latest_buffer in *.

Ltac done_step :=
  do 3 eexists; (split; [ reflexivity | ]); cbn; rewrite ?app_nil_r; auto.

(** One step: it returns; what it puts is what it read and is not blank;
    the queue is first in, first out; only a poll returns an item, the
    one it took. *)
Lemma step_spec :
  forall st sys,
    exists res sys' tr,
      Esp32Control.step st sys = (Returns res, sys', tr) /\
      puts tr = filter keeps (inputs tr) /\
      (gets tr ++ Esp32Control.message_buffer (Esp32Control.self_of sys'))%list =
        (Esp32Control.message_buffer (Esp32Control.self_of sys) ++ puts tr)%list /\
      gets tr = items [res] /\
      match st with Esp32Control.SchedulerPolls => True | _ => res = None end.
Proof.
  intros st [[rn ms d q] p].
  destruct st as [| r | |]; unfold_control; run_eff.
  - destruct p; cbn; done_step.
  - destruct p; cbn; try done_step.
    destruct r as [line | | e]; cbn; try done_step.
    rewrite str_truthy_strip. unfold keeps.
    destruct (blank line) eqn:B; cbn; do 3 eexists;
      (split; [ reflexivity | ]); cbn; unfold keeps; rewrite B; cbn;
      rewrite ?app_nil_r; auto.
  - destruct q as [|item q]; cbn; done_step.
  - done_step.
Qed.

Lemma run_spec :
  forall sched sys,
    exists polled sys' tr,
      Esp32Control.run sched sys = (Returns polled, sys', tr) /\
      puts tr = filter keeps (inputs tr) /\
      (gets tr ++ Esp32Control.message_buffer (Esp32Control.self_of sys'))%list =
        (Esp32Control.message_buffer (Esp32Control.self_of sys) ++ puts tr)%list /\
      gets tr = items polled.
Proof.
  induction sched as [|st rest IH]; intros sys.
  - exists [], sys, []. cbn. rewrite app_nil_r. auto.
  - destruct (step_spec st sys) as (res & s1 & t1 & E1 & P1 & Q1 & G1 & N1).
    destruct (IH s1) as (rs & s2 & t2 & E2 & P2 & Q2 & G2).
    exists (match st with Esp32Control.SchedulerPolls => res :: rs | _ => rs end),
      s2, (t1 ++ t2)%list.
    split.
    { cbn [Esp32Control.run]. unfold bind at 1. rewrite E1.
      unfold bind at 1. rewrite E2. cbn. now rewrite app_nil_r. }
    rewrite puts_app, inputs_app, gets_app, filter_app, P1, P2.
    split; [ reflexivity | ]. split.
    + rewrite <- app_assoc, Q2, app_assoc, Q1.
      now rewrite P1, P2, app_assoc.
    + rewrite G1, G2.
      destruct st; cbn in N1; subst; cbn; try reflexivity.
      destruct res; reflexivity.
Qed.

Lemma filter_keeps_not_blank :
  forall l, Forall (fun s => blank s = false) (filter keeps l).
Proof.
  intros l. apply Forall_forall. intros s H.
  apply filter_In in H. destruct H as [_ H]. unfold keeps in H.
  now apply negb_true_iff in H.
Qed.

(** The loop alone: it puts on the queue the lines it read that are not
    blank, in the order read. *)
Lemma input_loop_spec :
  forall script self,
    Esp32Control.running self = true ->
    let r := Esp32Control._input_loop script self in
    outcome r = Returns tt /\
    inputs (trace r) = lines_before_end script /\
    puts (trace r) = filter keeps (lines_before_end script) /\
    Esp32Control.message_buffer (self_after r) =
      (Esp32Control.message_buffer self
       ++ filter keeps (lines_before_end script))%list.
Proof.
  induction script as [|r script IH]; intros [rn ms d q] Hr; cbn in Hr; subst rn.
  - cbn. now rewrite app_nil_r.
  - destruct r as [line | | e].
    + cbn [lines_before_end filter].
      specialize (IH {| Esp32Control.running := true;
                        Esp32Control.messages := ms;
                        Esp32Control.descriptor_for_LLM := d;
                        Esp32Control.message_buffer :=
                          if keeps line then (q ++ [line])%list else q |} eq_refl).
      cbn zeta in IH. destruct IH as (O & I & P & Q).
      cbn [Esp32Control._input_loop]. unfold_control. run_eff.
      rewrite str_truthy_strip. fold (keeps line).
      destruct (keeps line) eqn:K; cbn;
        destruct (Esp32Control._input_loop script _) as [[o s'] t'];
        cbn in *; subst; repeat split; try reflexivity;
        rewrite ?app_nil_r, ?inputs_app, ?puts_app; cbn;
        rewrite ?I, ?P, ?Q, <- ?app_assoc; reflexivity.
    + cbn. now rewrite app_nil_r.
    + cbn. now rewrite app_nil_r.
Qed.

(** One poll: it returns the oldest item and leaves the rest. *)
Lemma poll_takes_the_oldest :
  forall self,
    let r := Esp32Control._poll self in
    outcome r = Returns (hd_error (Esp32Control.message_buffer self)) /\
    Esp32Control.message_buffer (self_after r) =
      tl (Esp32Control.message_buffer self) /\
    Esp32Control.running (self_after r) = Esp32Control.running self /\
    Esp32Control.messages (self_after r) = Esp32Control.messages self /\
    gets (trace r) = items [hd_error (Esp32Control.message_buffer self)].
Proof.
  intros [rn ms d q]. unfold_control. run_eff.
  destruct q as [|x q]; cbn; repeat split; reflexivity.
Qed.

(** A poll inside the whole. *)
Lemma step_poll :
  forall sys,
    exists sys' tr,
      Esp32Control.step Esp32Control.SchedulerPolls sys =
        (Returns (hd_error (Esp32Control.message_buffer (Esp32Control.self_of sys))),
         sys', tr) /\
      Esp32Control.message_buffer (Esp32Control.self_of sys') =
        tl (Esp32Control.message_buffer (Esp32Control.self_of sys)).
Proof.
  intros [[rn ms d q] p]. unfold_control. run_eff.
  destruct q as [|x q]; cbn; do 2 eexists; split; reflexivity.
Qed.

(** A run of two schedules one after the other. *)
Lemma run_app :
  forall s1 s2 sys,
    exists p1 sys1 t1 p2 sys2 t2,
      Esp32Control.run s1 sys = (Returns p1, sys1, t1) /\
      Esp32Control.run s2 sys1 = (Returns p2, sys2, t2) /\
      Esp32Control.run (s1 ++ s2)%list sys =
        (Returns (p1 ++ p2)%list, sys2, (t1 ++ t2)%list).
Proof.
  induction s1 as [|st s1 IH]; intros s2 sys.
  - destruct (run_spec s2 sys) as (p2 & sys2 & t2 & E2 & _).
    exists [], sys, [], p2, sys2, t2. cbn. auto.
  - destruct (step_spec st sys) as (res & sa & ta & Ea & _).
    destruct (IH s2 sa) as (p1 & sys1 & t1 & p2 & sys2 & t2 & E1 & E2 & E12).
    exists (match st with Esp32Control.SchedulerPolls => res :: p1 | _ => p1 end),
      sys1, (ta ++ t1)%list, p2, sys2, t2.
    split; [ | split; [ exact E2 | ] ].
    + cbn [Esp32Control.run]. unfold bind at 1. rewrite Ea.
      unfold bind at 1. rewrite E1. cbn. now rewrite app_nil_r.
    + cbn [Esp32Control.run app]. unfold bind at 1. rewrite Ea.
      unfold bind at 1. rewrite E12. cbn. rewrite app_nil_r, app_assoc.
      destruct st; reflexivity.
Qed.

(** Polls one after the other take the queue from its front. *)
Lemma polls_spec :
  forall n sys,
    let q := Esp32Control.message_buffer (Esp32Control.self_of sys) in
    let r := Esp32Control.run (repeat Esp32Control.SchedulerPolls n) sys in
    outcome r =
      Returns (map Some (firstn n q) ++ repeat None (n - length q))%list /\
    Esp32Control.message_buffer (Esp32Control.self_of (self_after r)) = skipn n q.
Proof.
  induction n as [|n IH]; intros sys.
  - cbn. auto.
  - destruct (step_poll sys) as (s1 & t1 & E1 & Q1).
    specialize (IH s1). cbn zeta in IH. destruct IH as (O & Q).
    destruct (Esp32Control.run (repeat Esp32Control.SchedulerPolls n) s1)
      as [[o s2] t2] eqn:E2.
    cbn in O, Q. subst o.
    assert (E : Esp32Control.run (repeat Esp32Control.SchedulerPolls (S n)) sys =
                (Returns
                   (hd_error (Esp32Control.message_buffer (Esp32Control.self_of sys))
                    :: map Some
                         (firstn n (Esp32Control.message_buffer
                                      (Esp32Control.self_of s1)))
                       ++ repeat None
                            (n - length (Esp32Control.message_buffer
                                           (Esp32Control.self_of s1))))%list,
                 s2, (t1 ++ t2)%list)).
    { cbn [repeat Esp32Control.run]. unfold bind at 1. rewrite E1.
      unfold bind at 1. rewrite E2. cbn. now rewrite app_nil_r. }
    cbn zeta. rewrite E. cbn [outcome self_after fst snd]. rewrite Q, Q1.
    destruct (Esp32Control.message_buffer (Esp32Control.self_of sys)) as [|x q];
      cbn.
    + rewrite firstn_nil, skipn_nil. cbn. rewrite Nat.sub_0_r. auto.
    + auto.
Qed.

(** In a run, a poll returns the oldest item of the queue as the steps
    before it left it. *)
Lemma run_poll_in_the_middle :
  forall sched1 sched2 sys,
    let before := Esp32Control.run sched1 sys in
    let r := Esp32Control.run
               (sched1 ++ Esp32Control.SchedulerPolls :: sched2)%list sys in
    exists polled1 polled2,
      outcome before = Returns polled1 /\
      outcome r =
        Returns (polled1
                 ++ hd_error (Esp32Control.message_buffer
                                (Esp32Control.self_of (self_after before)))
                    :: polled2)%list.
Proof.
  intros sched1 sched2 sys.
  destruct (run_app sched1 (Esp32Control.SchedulerPolls :: sched2) sys)
    as (p1 & sys1 & t1 & p2 & sys2 & t2 & E1 & E2 & E12).
  cbn zeta. rewrite E1, E12. cbn [outcome self_after fst snd].
  destruct (step_poll sys1) as (sa & ta & Ea & _).
  destruct (run_spec sched2 sa) as (pb & sb & tb & Eb & _).
  cbn [Esp32Control.run] in E2. unfold bind at 1 in E2. rewrite Ea in E2.
  unfold bind at 1 in E2. rewrite Eb in E2. cbn in E2.
  inversion E2; subst.
  exists p1, pb. split; reflexivity.
Qed.

(** C9.  Thread bridge.  Lines are strings of code points below 256,
    on which [blank] is Python's [not s.strip()].  (1) The input loop
    run on the answers of [input()]: it returns; the items it puts on
    the queue are the lines it read that are not blank, in the order
    read, appended behind what the queue held; no blank or
    white-space-only line is put.  (2) With the scheduler polling and
    [stop()] called at any moments in between (any schedule of atomic
    steps): the run returns; the items put are the non-blank lines read,
    in order; none is blank; and what the polls returned, followed by
    what is left on the queue, is what the queue held followed by the
    items put.  (3) A poll returns the oldest item of the queue and
    leaves the others, in their order; on the empty queue it returns
    [None]; it changes neither the flag nor the text buffer.  (4) In any
    schedule, each poll returns the oldest item of the queue as the
    steps before it left it, so a poll returns [None] only when every
    line put so far has been taken.  (5) After the loop, [n] polls
    return the first [n] of the items queued and of the non-blank lines
    read, in arrival order, then [None]; the queue keeps the rest. *)
Theorem C9_bridge_enqueues_non_blank_lines_in_order :
  (forall script self,
      Esp32Control.running self = true ->
      let r := Esp32Control._input_loop script self in
      outcome r = Returns tt /\
      inputs (trace r) = lines_before_end script /\
      puts (trace r) = filter keeps (inputs (trace r)) /\
      Forall (fun s => blank s = false) (puts (trace r)) /\
      Esp32Control.message_buffer (self_after r) =
        (Esp32Control.message_buffer self ++ puts (trace r))%list) /\
  (forall sched sys,
      let r := Esp32Control.run sched sys in
      exists polled,
        outcome r = Returns polled /\
        puts (trace r) = filter keeps (inputs (trace r)) /\
        Forall (fun s => blank s = false) (puts (trace r)) /\
        (items polled
         ++ Esp32Control.message_buffer (Esp32Control.self_of (self_after r)))%list =
          (Esp32Control.message_buffer (Esp32Control.self_of sys)
           ++ puts (trace r))%list) /\
  (forall self,
      let r := Esp32Control._poll self in
      outcome r = Returns (hd_error (Esp32Control.message_buffer self)) /\
      Esp32Control.message_buffer (self_after r) =
        tl (Esp32Control.message_buffer self) /\
      Esp32Control.running (self_after r) = Esp32Control.running self /\
      Esp32Control.messages (self_after r) = Esp32Control.messages self) /\
  (forall sched1 sched2 sys,
      let before := Esp32Control.run sched1 sys in
      let r := Esp32Control.run
                 (sched1 ++ Esp32Control.SchedulerPolls :: sched2)%list sys in
      exists polled1 polled2,
        outcome before = Returns polled1 /\
        outcome r =
          Returns (polled1
                   ++ hd_error (Esp32Control.message_buffer
                                  (Esp32Control.self_of (self_after before)))
                      :: polled2)%list) /\
  (forall script self p n,
      Esp32Control.running self = true ->
      let loop := Esp32Control._input_loop script self in
      let r := Esp32Control.run (repeat Esp32Control.SchedulerPolls n)
                 {| Esp32Control.self_of := self_after loop;
                    Esp32Control.pc := p |} in
      let q := (Esp32Control.message_buffer self
                ++ filter keeps (lines_before_end script))%list in
      outcome r =
        Returns (map Some (firstn n q) ++ repeat None (n - length q))%list /\
      Esp32Control.message_buffer (Esp32Control.self_of (self_after r)) =
        skipn n q).
Proof.
  split; [ | split; [ | split; [ | split ] ] ].
  - intros script self Hr r.
    destruct (input_loop_spec script self Hr) as (O & I & P & Q).
    fold r in O, I, P, Q.
    repeat split; auto.
    + now rewrite I.
    + rewrite P. apply filter_keeps_not_blank.
    + now rewrite P.
  - intros sched sys r.
    destruct (run_spec sched sys) as (polled & s' & tr & E & P & Q & G).
    subst r. rewrite E. cbn [outcome trace self_after fst snd].
    exists polled. repeat split; auto.
    + rewrite P. apply filter_keeps_not_blank.
    + now rewrite <- G.
  - intros self r.
    destruct (poll_takes_the_oldest self) as (O & Q & R & M & _).
    auto.
  - apply run_poll_in_the_middle.
  - intros script self p n Hr loop r q.
    destruct (input_loop_spec script self Hr) as (_ & _ & _ & Q).
    fold loop in Q.
    destruct (polls_spec n {| Esp32Control.self_of := self_after loop;
                              Esp32Control.pc := p |}) as (O & B).
    fold r in O, B. cbn [Esp32Control.self_of] in O, B.
    rewrite Q in O, B. auto.
Qed.

(** C9 on a run: the thread reads "forward", a line of blanks and
    "back"; the queue holds "forward" then "back", and three polls
    return "forward", "back" and nothing. *)
Lemma C9_bridge_witness :
  let script := [Esp32Control.Line "forward"; Esp32Control.Line "   ";
                 Esp32Control.Line "back"; Esp32Control.EOFError] in
  let r := Esp32Control._input_loop script Esp32Control.init in
  (outcome r = Returns tt /\
   inputs (trace r) = lines_before_end script /\
   puts (trace r) = filter keeps (inputs (trace r)) /\
   Forall (fun s => blank s = false) (puts (trace r)) /\
   Esp32Control.message_buffer (self_after r) =
     (Esp32Control.message_buffer Esp32Control.init ++ puts (trace r))%list) /\
  (let polls := Esp32Control.run (repeat Esp32Control.SchedulerPolls 3)
                  {| Esp32Control.self_of := self_after r;
                     Esp32Control.pc := Esp32Control.Exited |} in
   outcome polls = Returns [Some "forward"; Some "back"; None] /\
   Esp32Control.message_buffer (Esp32Control.self_of (self_after polls)) = []).
Proof.
  intros script r. split.
  - exact (proj1 C9_bridge_enqueues_non_blank_lines_in_order script
             Esp32Control.init eq_refl).
  - exact (proj2 (proj2 (proj2 (proj2
             C9_bridge_enqueues_non_blank_lines_in_order)))
             script Esp32Control.init Esp32Control.Exited 3 eq_refl).
Defined.

Example bridge_run_example :
  Esp32Control.message_buffer
    (self_after
       (Esp32Control._input_loop
          [Esp32Control.Line "forward"; Esp32Control.Line "   ";
           Esp32Control.Line "back"; Esp32Control.EOFError]
          Esp32Control.init))
  = ["forward"; "back"].
Proof. reflexivity. Qed.

Example polls_after_the_loop :
  let loop := Esp32Control._input_loop
                [Esp32Control.Line "forward"; Esp32Control.Line "   ";
                 Esp32Control.Line "back"; Esp32Control.EOFError]
                Esp32Control.init in
  outcome
    (Esp32Control.run (repeat Esp32Control.SchedulerPolls 3)
       {| Esp32Control.self_of := self_after loop;
          Esp32Control.pc := Esp32Control.Exited |})
  = Returns [Some "forward"; Some "back"; None].
Proof. reflexivity. Qed.

(** A line read while [stop()] arrives is still put on the queue: the
    flag is tested at the top of the loop only. *)
Example stop_does_not_interrupt_a_pending_read :
  let r := Esp32Control.run
             [Esp32Control.TestRunning; Esp32Control.StopCalled;
              Esp32Control.InputAnswers (Esp32Control.Line "left");
              Esp32Control.TestRunning;
              Esp32Control.InputAnswers (Esp32Control.Line "right");
              Esp32Control.SchedulerPolls; Esp32Control.SchedulerPolls]
             Esp32Control.start in
  outcome r = Returns [Some "left"; None] /\
  Esp32Control.pc (self_after r) = Esp32Control.Exited.
Proof. split; reflexivity. Qed.

(** ** The text buffer of the operator-command source *)

Lemma py_last_app :
  forall (A : Type) (l : list A) (x : A), py_last (l ++ [x]) = Some x.
Proof. intros A l x. unfold py_last. now rewrite rev_unit. Qed.

Lemma py_last_nil_iff :
  forall (A : Type) (l : list A), py_last l = None <-> l = [].
Proof.
  intros A l. unfold py_last. split.
  - intros H. destruct (rev l) eqn:E; [ | discriminate ].
    apply (f_equal (@rev A)) in E. now rewrite rev_involutive in E.
  - intros ->. reflexivity.
Qed.

Lemma set_last_app :
  forall (A : Type) (l : list A) (x y : A), set_last (l ++ [x]) y = (l ++ [y])%list.
Proof. intros A l x y. unfold set_last. now rewrite removelast_last. Qed.

(** A new text goes into an empty buffer as its only entry. *)
Lemma control_raw_to_text_empty :
  forall now raw self,
    Esp32Control.messages self = [] ->
    Esp32Control.messages
      (self_after (Esp32Control.raw_to_text now (Some raw) self)) = [raw].
Proof.
  intros now raw [rn ms d q] H. cbn in H. subst ms. reflexivity.
Qed.

(** On a buffer that is not empty the last entry is replaced by itself,
    a space and the new text; the number of entries stays. *)
Lemma control_raw_to_text_merge :
  forall now raw self older prev,
    Esp32Control.messages self = (older ++ [prev])%list ->
    Esp32Control.messages
      (self_after (Esp32Control.raw_to_text now (Some raw) self)) =
      (older ++ [(prev ++ " " ++ raw)%string])%list.
Proof.
  intros now raw [rn ms d q] older prev H. cbn in H. subst ms.
  unfold_control. cbv [bind ret get modify self_after].
  cbn [Esp32Control.messages]. rewrite py_last_app.
  cbn [fst snd Esp32Control.messages]. apply set_last_app.
Qed.

(** No sample, no change. *)
Lemma control_raw_to_text_none :
  forall now self,
    Esp32Control.raw_to_text now None self = (Returns tt, self, []).
Proof. reflexivity. Qed.

(** C6.  Append-and-concatenate: on an empty buffer, producing [a] and
    then [b] with no drain in between leaves exactly one entry, [a], a
    space, [b]; after the first production the buffer holds the one
    entry [a]. *)
Theorem C6_append_and_concatenate :
  forall (self : Esp32Control.t) (a b : string) (t1 t2 : Time),
    Esp32Control.messages self = [] ->
    let r1 := Esp32Control.raw_to_text t1 (Some a) self in
    let r2 := Esp32Control.raw_to_text t2 (Some b) (self_after r1) in
    outcome r1 = Returns tt /\ outcome r2 = Returns tt /\
    Esp32Control.messages (self_after r1) = [a] /\
    Esp32Control.messages (self_after r2) = [a ++ " " ++ b] /\
    length (Esp32Control.messages (self_after r2)) = 1.
Proof.
  intros self a b t1 t2 H r1 r2.
  assert (H1 : Esp32Control.messages (self_after r1) = [a])
    by (apply control_raw_to_text_empty; exact H).
  assert (H2 : Esp32Control.messages (self_after r2) = [a ++ " " ++ b])
    by (apply (control_raw_to_text_merge t2 b (self_after r1) [] a); exact H1).
  rewrite H1, H2. repeat split.
  - subst r1. destruct self as [rn ms d q]. cbn in H. subst ms. reflexivity.
  - subst r2. destruct (self_after r1) as [rn ms d q]. cbn in H1. subst ms.
    reflexivity.
Qed.

(** C6 on the texts "a" and "b": the sole entry is "a b". *)
Lemma C6_append_and_concatenate_witness :
  let r1 := Esp32Control.raw_to_text 1%Z (Some "a") Esp32Control.init in
  let r2 := Esp32Control.raw_to_text 2%Z (Some "b") (self_after r1) in
  outcome r1 = Returns tt /\ outcome r2 = Returns tt /\
  Esp32Control.messages (self_after r1) = ["a"] /\
  Esp32Control.messages (self_after r2) = ["a b"] /\
  length (Esp32Control.messages (self_after r2)) = 1.
Proof.
  exact (C6_append_and_concatenate Esp32Control.init "a" "b" 1%Z 2%Z eq_refl).
Defined.

(** ** Texts *)

Lemma string_app_nil_r : forall s : string, s ++ "" = s.
Proof. induction s as [|c s IH]; cbn; [ reflexivity | now rewrite IH ]. Qed.

Lemma string_app_assoc :
  forall s1 s2 s3 : string, (s1 ++ s2) ++ s3 = s1 ++ (s2 ++ s3).
Proof.
  induction s1 as [|c s1 IH]; intros s2 s3; cbn;
    [ reflexivity | now rewrite IH ].
Qed.

Lemma occurs_in_middle :
  forall before sub after : string, occurs_in sub (before ++ sub ++ after).
Proof. intros before sub after. now exists before, after. Qed.

(** ** Buffer drain *)

Lemma control_drain_empty :
  forall now self,
    Esp32Control.messages self = [] ->
    Esp32Control.formatted_latest_buffer now self = (Returns None, self, []).
Proof.
  intros now [rn ms d q] H. cbn in H. subst ms. reflexivity.
Qed.

Lemma control_drain_nonempty :
  forall now self older current,
    Esp32Control.messages self = (older ++ [current])%list ->
    Esp32Control.formatted_latest_buffer now self =
      (Returns (Some ("User Command: " ++ current)),
       {| Esp32Control.running := Esp32Control.running self;
          Esp32Control.messages := [];
          Esp32Control.descriptor_for_LLM := Esp32Control.descriptor_for_LLM self;
          Esp32Control.message_buffer := Esp32Control.message_buffer self |},
       [AddInput (Esp32Control.descriptor_for_LLM self) current now;
        StoreUserMessage current]).
Proof.
  intros now [rn ms d q] older current H. cbn in H. subst ms.
  unfold_control. cbv [bind ret get modify add_input store_user_message emit].
  cbn [Esp32Control.messages]. rewrite py_last_app. reflexivity.
Qed.

Lemma video_drain_empty :
  forall self,
    Esp32CamVideo.messages self = [] ->
    Esp32CamVideo.formatted_latest_buffer self = (Returns None, self, []).
Proof.
  intros [u ty f a c ms d] H. cbn in H. subst ms. reflexivity.
Qed.

Lemma video_drain_nonempty :
  forall self older latest,
    Esp32CamVideo.messages self = (older ++ [latest])%list ->
    Esp32CamVideo.formatted_latest_buffer self =
      (Returns (Some (nl ++ "INPUT: " ++ Esp32CamVideo.descriptor_for_LLM self
                      ++ nl ++ "// START" ++ nl ++ message latest ++ nl
                      ++ "// END" ++ nl)),
       {| Esp32CamVideo.stream_url := Esp32CamVideo.stream_url self;
          Esp32CamVideo.stream_type := Esp32CamVideo.stream_type self;
          Esp32CamVideo.fps := Esp32CamVideo.fps self;
          Esp32CamVideo.analyze_with_vlm := Esp32CamVideo.analyze_with_vlm self;
          Esp32CamVideo.cap := Esp32CamVideo.cap self;
          Esp32CamVideo.messages := [];
          Esp32CamVideo.descriptor_for_LLM := Esp32CamVideo.descriptor_for_LLM self |},
       [AddInput Esp32CamVideo.class_name (message latest) (timestamp latest)]).
Proof.
  intros [u ty f a c ms d] older latest H. cbn in H. subst ms.
  unfold Esp32CamVideo.formatted_latest_buffer, Esp32CamVideo.set_messages.
  cbv [bind ret get modify add_input emit].
  cbn [Esp32CamVideo.messages]. rewrite py_last_app. reflexivity.
Qed.

(** Replace-latest: the video source appends each new Message. *)
Lemma video_raw_to_text_appends :
  forall w frame self,
    exists m,
      outcome (Esp32CamVideo._raw_to_text w (Some frame) self) = Returns (Some m) /\
      timestamp m = Esp32CamVideo.time_reply w /\
      Esp32CamVideo.messages
        (self_after (Esp32CamVideo.raw_to_text w (Some frame) self)) =
        (Esp32CamVideo.messages self ++ [m])%list.
Proof.
  intros w frame self. eexists. repeat split.
Qed.

(** C5, counterexample.  The operator-command source does not forward
    the Message's timestamp: the Message made from "forward" at clock
    reading 100 and drained at clock reading 200 reaches [add_input] with
    200; no call of [add_input] carries 100. *)
Lemma C5_control_forwards_drain_time_not_message_time :
  let produced := Esp32Control._raw_to_text 100%Z (Some "forward")
                    Esp32Control.init in
  let buffered := Esp32Control.raw_to_text 100%Z (Some "forward")
                    Esp32Control.init in
  let drained := Esp32Control.formatted_latest_buffer 200%Z
                   (self_after buffered) in
  outcome produced =
    Returns (Some {| timestamp := 100%Z; message := "forward" |}) /\
  outcome drained = Returns (Some "User Command: forward") /\
  trace drained = [AddInput "User" "forward" 200%Z; StoreUserMessage "forward"] /\
  ~ In (AddInput "User" "forward" 100%Z) (trace drained).
Proof.
  cbv zeta. repeat split.
  cbn. intros [H | [H | []]]; discriminate.
Qed.

(** C5, as amended.  Drain ([formatted_latest_buffer]) of both sources:
    on an empty buffer it returns [None], changes nothing and calls
    nothing.  Otherwise it takes the last entry, returns a text that
    contains the descriptor label and the entry's text, calls [add_input]
    with the entry's text, and empties the buffer, so that a second drain
    at once returns [None].  The timestamp given to [add_input] is, for
    the video source, the timestamp of the latest Message; for the
    operator-command source, whose buffer holds texts without
    timestamps, the clock reading at the drain. *)
Theorem C5_drain_contract :
  (forall now self,
      Esp32Control.messages self = [] ->
      Esp32Control.formatted_latest_buffer now self = (Returns None, self, [])) /\
  (forall now self older current,
      Esp32Control.messages self = (older ++ [current])%list ->
      Esp32Control.descriptor_for_LLM self = "User" ->
      let r := Esp32Control.formatted_latest_buffer now self in
      exists text,
        outcome r = Returns (Some text) /\
        occurs_in (Esp32Control.descriptor_for_LLM self) text /\
        occurs_in current text /\
        trace r = [AddInput (Esp32Control.descriptor_for_LLM self) current now;
                   StoreUserMessage current] /\
        Esp32Control.messages (self_after r) = [] /\
        (forall now',
            Esp32Control.formatted_latest_buffer now' (self_after r) =
              (Returns None, self_after r, []))) /\
  (forall self,
      Esp32CamVideo.messages self = [] ->
      Esp32CamVideo.formatted_latest_buffer self = (Returns None, self, [])) /\
  (forall self older latest,
      Esp32CamVideo.messages self = (older ++ [latest])%list ->
      let r := Esp32CamVideo.formatted_latest_buffer self in
      exists text,
        outcome r = Returns (Some text) /\
        occurs_in (Esp32CamVideo.descriptor_for_LLM self) text /\
        occurs_in (message latest) text /\
        trace r = [AddInput Esp32CamVideo.class_name (message latest)
                     (timestamp latest)] /\
        Esp32CamVideo.messages (self_after r) = [] /\
        Esp32CamVideo.formatted_latest_buffer (self_after r) =
          (Returns None, self_after r, [])).
Proof.
  split; [ exact control_drain_empty | ].
  split.
  { intros now self older current Hm Hd r. subst r.
    rewrite (control_drain_nonempty now self older current Hm).
    cbn [outcome trace self_after fst snd].
    exists ("User Command: " ++ current). repeat split.
    - rewrite Hd. exists "", (" Command: " ++ current). reflexivity.
    - exists "User Command: ", "". now rewrite string_app_nil_r. }
  split; [ exact video_drain_empty | ].
  intros self older latest Hm r. subst r.
  rewrite (video_drain_nonempty self older latest Hm).
  cbn [outcome trace self_after fst snd].
  eexists. split; [ reflexivity | ]. repeat split.
  - exists (nl ++ "INPUT: "),
      (nl ++ "// START" ++ nl ++ message latest ++ nl ++ "// END" ++ nl).
    reflexivity.
  - exists (nl ++ "INPUT: " ++ Esp32CamVideo.descriptor_for_LLM self ++ nl
            ++ "// START" ++ nl),
      (nl ++ "// END" ++ nl).
    rewrite !string_app_assoc. reflexivity.
Qed.

(** C5 on a run: the operator types "forward"; the drain returns
    "User Command: forward" and a second drain returns [None]. *)
Lemma C5_drain_contract_witness :
  let self := self_after (Esp32Control.raw_to_text 100%Z (Some "forward")
                            Esp32Control.init) in
  let r := Esp32Control.formatted_latest_buffer 200%Z self in
  exists text,
    outcome r = Returns (Some text) /\
    occurs_in (Esp32Control.descriptor_for_LLM self) text /\
    occurs_in "forward" text /\
    trace r = [AddInput (Esp32Control.descriptor_for_LLM self) "forward" 200%Z;
               StoreUserMessage "forward"] /\
    Esp32Control.messages (self_after r) = [] /\
    (forall now',
        Esp32Control.formatted_latest_buffer now' (self_after r) =
          (Returns None, self_after r, [])).
Proof.
  intros self.
  exact (proj1 (proj2 C5_drain_contract) 200%Z self [] "forward"
           eq_refl eq_refl).
Defined.

(** ** The video source: polling and the capture handle *)

Ltac unfold_video :=
  unfold Esp32CamVideo._poll, Esp32CamVideo.sleep_one_frame,
    Esp32CamVideo.internal,
    Esp32CamVideo.cap_isOpened, Esp32CamVideo.cap_read,
    Esp32CamVideo.cap_release, Esp32CamVideo.stop,
    Esp32CamVideo.raw_to_text, Esp32CamVideo._raw_to_text,
    Esp32CamVideo.formatted_latest_buffer, Esp32CamVideo.set_messages,
    Esp32CamVideo.set_cap in *.

(** The division [1.0 / n] returns exactly for the rates that are not 0
    and that [float()] converts. *)
Lemma one_over_returns_iff :
  forall n,
    Esp32CamVideo.one_over n = Returns tt <->
      n <> 0%Z /\ (Z.abs n < Esp32CamVideo.float_overflow_from)%Z.
Proof.
  intros n. unfold Esp32CamVideo.one_over.
  destruct (Z.eqb_spec n 0) as [E|E].
  - split; [ discriminate | intros [H _]; contradiction ].
  - destruct (Z.leb_spec Esp32CamVideo.float_overflow_from (Z.abs n)) as [L|L].
    + split; [ discriminate | intros [_ H]; lia ].
    + split; auto.
Qed.

Lemma one_over_raises_iff :
  forall n e,
    Esp32CamVideo.one_over n = Raises e <->
      (n = 0%Z /\ e = "float division by zero") \/
      ((Esp32CamVideo.float_overflow_from <= Z.abs n)%Z /\
       e = "int too large to convert to float").
Proof.
  intros n e. unfold Esp32CamVideo.one_over.
  assert (P : (0 < Esp32CamVideo.float_overflow_from)%Z) by reflexivity.
  destruct (Z.eqb_spec n 0) as [E|E].
  - subst n. split.
    + intros H. inversion H. auto.
    + intros [[_ ->] | [H _]]; [ reflexivity | cbn in H; lia ].
  - destruct (Z.leb_spec Esp32CamVideo.float_overflow_from (Z.abs n)) as [L|L].
    + split.
      * intros H. inversion H. auto.
      * intros [[H _] | [_ ->]]; [ contradiction | reflexivity ].
    + split; [ discriminate | intros [[H _] | [H _]]; [ contradiction | lia ] ].
Qed.

(** No poll, whatever its outcome, changes the object or opens or
    releases a capture. *)
Lemma poll_never_tears_down :
  forall w self,
    self_after (Esp32CamVideo._poll w self) = self /\
    existsb tears_down (trace (Esp32CamVideo._poll w self)) = false.
Proof.
  intros w [u ty f a c ms d]. unfold_video. run_eff.
  destruct (Esp32CamVideo.one_over f) as [[]|e]; cbn; [ | split; reflexivity ].
  destruct c as [h|]; cbn; [ | split; reflexivity ].
  destruct (Esp32CamVideo.isOpened_reply w h) as [[]|e]; cbn;
    try (split; reflexivity).
  destruct (Esp32CamVideo.read_reply w h) as [[[] fr]|e]; cbn; split; reflexivity.
Qed.

(** Converting a sample and draining the buffer do not touch the capture. *)
Lemma buffer_methods_never_tear_down :
  forall w raw self,
    Esp32CamVideo.cap (self_after (Esp32CamVideo.raw_to_text w raw self)) =
      Esp32CamVideo.cap self /\
    trace (Esp32CamVideo.raw_to_text w raw self) = [] /\
    Esp32CamVideo.cap (self_after (Esp32CamVideo.formatted_latest_buffer self)) =
      Esp32CamVideo.cap self /\
    existsb tears_down (trace (Esp32CamVideo.formatted_latest_buffer self)) = false.
Proof.
  intros w raw [u ty f a c ms d]. unfold_video. run_eff.
  destruct raw; cbn; destruct (py_last ms); cbn; repeat split; reflexivity.
Qed.

(** [stop()] calls [release()] exactly when a capture is held and
    reports itself open; it keeps the reference. *)
Lemma stop_releases :
  forall w self h,
    (In (CapRelease h) (trace (Esp32CamVideo.stop w self)) <->
       Esp32CamVideo.cap self = Some h /\
       Esp32CamVideo.isOpened_reply w h = Returns true) /\
    self_after (Esp32CamVideo.stop w self) = self.
Proof.
  intros w [u ty f a c ms d] h. unfold_video. run_eff.
  destruct c as [h'|]; cbn.
  - destruct (Esp32CamVideo.isOpened_reply w h') as [[]|e] eqn:E; cbn;
      [ destruct (Esp32CamVideo.release_reply w h') as [[]|e']; cbn | | ];
      (split; [ | reflexivity ]); split; intros H;
      repeat match goal with
        | H : _ \/ _ |- _ => destruct H
        | H : _ /\ _ |- _ => destruct H
        | H : False |- _ => destruct H
        | H : Some _ = Some _ |- _ => inversion H; clear H; subst
        | H : CapRelease _ = CapRelease _ |- _ => inversion H; clear H; subst
        | H : _ = CapRelease _ |- _ => discriminate H
        end; auto; congruence.
  - split; [ | reflexivity ].
    split; [ intros [] | intros [H _]; discriminate ].
Qed.

(** C8.  A poll of the video source whose read of a frame fails (no
    capture is held, or the capture reports itself not open, or [read()]
    returns no frame) yields no Sample: it never returns a frame.  It
    returns [None] whenever the delay [1.0 / self.fps] computes; for the
    rates for which that division raises (0, or an [int] that [float()]
    does not convert) the exception of the division leaves the poll
    before any call is made.  In every case the poll logs nothing but at
    most the one warning, and that one exactly when [read()] was called
    and returned a false flag; it leaves the object, the capture
    reference included, as it was, and makes no call that opens or
    releases a capture.  The release is called by [stop()], exactly when a capture
    is held and reports itself open. *)
Theorem C8_failed_poll_leaves_capture_alone :
  forall (w : Esp32CamVideo.World) (self : Esp32CamVideo.t),
    (Esp32CamVideo.cap self = None \/
     exists h,
       Esp32CamVideo.cap self = Some h /\
       (Esp32CamVideo.isOpened_reply w h = Returns false \/
        (Esp32CamVideo.isOpened_reply w h = Returns true /\
         exists ok fr,
           Esp32CamVideo.read_reply w h = Returns (ok, fr) /\
           (ok = false \/ fr = None)))) ->
    let r := Esp32CamVideo._poll w self in
    (forall frame, outcome r <> Returns (Some frame)) /\
    (Esp32CamVideo.one_over (Esp32CamVideo.fps self) = Returns tt ->
     outcome r = Returns None) /\
    (forall e, Esp32CamVideo.one_over (Esp32CamVideo.fps self) = Raises e ->
               outcome r = Raises e /\ trace r = []) /\
    self_after r = self /\
    existsb tears_down (trace r) = false /\
    logged ERROR (trace r) = [] /\
    logged INFO (trace r) = [] /\
    (logged WARNING (trace r) = [] \/
     logged WARNING (trace r) = ["Failed to read frame from video stream"]) /\
    (logged WARNING (trace r) = ["Failed to read frame from video stream"] <->
     Esp32CamVideo.one_over (Esp32CamVideo.fps self) = Returns tt /\
     exists h fr,
       Esp32CamVideo.cap self = Some h /\
       Esp32CamVideo.isOpened_reply w h = Returns true /\
       Esp32CamVideo.read_reply w h = Returns (false, fr)) /\
    (forall w' self' h,
        In (CapRelease h) (trace (Esp32CamVideo.stop w' self')) <->
          Esp32CamVideo.cap self' = Some h /\
          Esp32CamVideo.isOpened_reply w' h = Returns true).
Proof.
  intros w self Hfail r.
  assert (Hstop : forall w' self' h,
             In (CapRelease h) (trace (Esp32CamVideo.stop w' self')) <->
               Esp32CamVideo.cap self' = Some h /\
               Esp32CamVideo.isOpened_reply w' h = Returns true)
    by (intros w' self' h; apply stop_releases).
  destruct (poll_never_tears_down w self) as [Hs Ht]. fold r in Hs, Ht.
  assert (Hlog : (forall frame, outcome r <> Returns (Some frame)) /\
                 (Esp32CamVideo.one_over (Esp32CamVideo.fps self) = Returns tt ->
                  outcome r = Returns None) /\
                 (forall e,
                     Esp32CamVideo.one_over (Esp32CamVideo.fps self) = Raises e ->
                     outcome r = Raises e /\ trace r = []) /\
                 logged ERROR (trace r) = [] /\
                 logged INFO (trace r) = [] /\
                 (logged WARNING (trace r) = [] \/
                  logged WARNING (trace r) =
                    ["Failed to read frame from video stream"]) /\
                 (logged WARNING (trace r) =
                    ["Failed to read frame from video stream"] <->
                  Esp32CamVideo.one_over (Esp32CamVideo.fps self) = Returns tt /\
                  exists h fr,
                    Esp32CamVideo.cap self = Some h /\
                    Esp32CamVideo.isOpened_reply w h = Returns true /\
                    Esp32CamVideo.read_reply w h = Returns (false, fr))).
  { subst r. clear Hs Ht Hstop.
    destruct self as [u ty f a c ms d]. cbn in Hfail.
    unfold_video. run_eff.
    destruct (Esp32CamVideo.one_over f) as [[]|e0]; cbn;
      [ destruct Hfail as [Hc | [h [Hc Hr]]]; subst c; cbn;
        [ | destruct Hr as [Hr | [Hr (ok & fr & Hrd & Hno)]]; rewrite Hr; cbn;
            [ | rewrite Hrd; cbn;
                destruct Hno as [-> | ->]; cbn; [ | destruct ok; cbn ] ] ]
      | ];
      repeat match goal with |- _ /\ _ => split | |- _ <-> _ => split end;
      auto; try (intros; discriminate).
    all: try (intros e H; inversion H; split; reflexivity).
    all: try (intros (Hd & _); discriminate).
    all: try (intros (_ & h0 & fr0 & Hc0 & Ho0 & Hr0); congruence).
    all: try (intros _; split; [ reflexivity | ];
              do 2 eexists; repeat split; eassumption). }
  destruct Hlog as (H1 & H2 & H3 & H4 & H5 & H6 & H7).
  repeat (split; [ assumption | ]). exact Hstop.
Qed.

(** C8 on a run: the capture is open and [read()] returns [(False, None)]. *)
Lemma C8_failed_poll_witness :
  let w := video_world true (false, None) "12:00:00" 0%Z in
  let self := video_object Esp32CamVideo.default_config 1 in
  let r := Esp32CamVideo._poll w self in
  (forall frame, outcome r <> Returns (Some frame)) /\
  (Esp32CamVideo.one_over (Esp32CamVideo.fps self) = Returns tt ->
   outcome r = Returns None) /\
  (forall e, Esp32CamVideo.one_over (Esp32CamVideo.fps self) = Raises e ->
             outcome r = Raises e /\ trace r = []) /\
  self_after r = self /\
  existsb tears_down (trace r) = false /\
  logged ERROR (trace r) = [] /\
  logged INFO (trace r) = [] /\
  (logged WARNING (trace r) = [] \/
   logged WARNING (trace r) = ["Failed to read frame from video stream"]) /\
  (logged WARNING (trace r) = ["Failed to read frame from video stream"] <->
   Esp32CamVideo.one_over (Esp32CamVideo.fps self) = Returns tt /\
   exists h fr,
     Esp32CamVideo.cap self = Some h /\
     Esp32CamVideo.isOpened_reply w h = Returns true /\
     Esp32CamVideo.read_reply w h = Returns (false, fr)) /\
  (forall w' self' h,
      In (CapRelease h) (trace (Esp32CamVideo.stop w' self')) <->
        Esp32CamVideo.cap self' = Some h /\
        Esp32CamVideo.isOpened_reply w' h = Returns true).
Proof.
  intros w self.
  apply (C8_failed_poll_leaves_capture_alone w self).
  right. exists 1. split; [ reflexivity | ].
  right. split; [ reflexivity | ].
  exists false, None. split; [ reflexivity | left; reflexivity ].
Defined.

Example failed_poll_run :
  Esp32CamVideo._poll (video_world true (false, None) "12:00:00" 0%Z)
    (video_object Esp32CamVideo.default_config 1) =
    (Returns None, video_object Esp32CamVideo.default_config 1,
     [Sleep 1 5; CapIsOpened 1; CapRead 1;
      Log WARNING "Failed to read frame from video stream"]).
Proof. reflexivity. Qed.

(** At rate 0 a poll raises before the capture is asked. *)
Example failed_poll_at_rate_zero :
  Esp32CamVideo._poll (video_world false (false, None) "12:00:00" 0%Z)
    (video_object
       {| Esp32CamVideo.cfg_stream_url := "http://10.0.0.2:81/stream";
          Esp32CamVideo.cfg_stream_type := "http";
          Esp32CamVideo.cfg_fps := 0;
          Esp32CamVideo.cfg_analyze_with_vlm := false |} 1) =
    (Raises "float division by zero",
     video_object
       {| Esp32CamVideo.cfg_stream_url := "http://10.0.0.2:81/stream";
          Esp32CamVideo.cfg_stream_type := "http";
          Esp32CamVideo.cfg_fps := 0;
          Esp32CamVideo.cfg_analyze_with_vlm := false |} 1,
     []).
Proof. reflexivity. Qed.

Example video_frame_text :
  outcome (Esp32CamVideo._raw_to_text
             (video_world true (false, None) "12:00:00" 7%Z)
             (Some {| Esp32CamVideo.height := 480; Esp32CamVideo.width := 640 |})
             (video_object Esp32CamVideo.default_config 1))
  = Returns (Some {| timestamp := 7%Z;
                     message := "Received video frame at 12:00:00 (640x480 pixels). Video stream active." |}).
Proof. reflexivity. Qed.

(* ================================================================== *)
(** * Part III.  Further properties of the connectors and sources *)
(* ================================================================== *)

(** ** Dispatch: what one call of [connect] can do *)

(** The serial connector, whatever the state, the input and the device:
    [connect] returns, opens at most once, closes at most once, and
    either writes nothing or writes once the code of the directive whose
    value [str(action)] is, followed by a line feed. *)
Lemma serial_connect_shape :
  forall w i self,
    let r := SerialMotor.connect w i self in
    outcome r = Returns tt /\
    opens (trace r) <= 1 /\
    closes (trace r) <= 1 /\
    (writes (trace r) = [] \/
     exists a, py_str (action i) = value a /\ writes (trace r) = [code a ++ nl]).
Proof.
  intros w i self r. subst r.
  unfold SerialMotor.connect.
  destruct (dict_get signal_map (py_str (action i))) as [sg|] eqn:D.
  - destruct (dict_get_some_inv _ _ D) as [a [Ha Hs]]. subst sg.
    rewrite (truthy_code a).
    destruct self as [cfg [[h o]|]]; unfold_serial; run_eff; split_match;
      cbn; repeat split; try lia; eauto.
  - cbn [truthy].
    destruct self as [cfg [[h o]|]]; unfold_serial; run_eff; split_match;
      cbn; repeat split; try lia; eauto.
Qed.

(** The UDP connector: the same, except that [connect] can raise, and
    then with what [sock.close()] raised after a failed send. *)
Lemma wifi_connect_shape :
  forall w i self,
    let r := WifiMotor.connect w i self in
    (outcome r = Returns tt \/
     exists h e, WifiMotor.close_reply w h = Raises e /\ outcome r = Raises e /\
                 closes (trace r) = 1 /\ length (writes (trace r)) = 1) /\
    opens (trace r) <= 1 /\
    closes (trace r) <= 1 /\
    (writes (trace r) = [] \/
     exists a, py_str (action i) = value a /\ writes (trace r) = [code a]).
Proof.
  intros w i self r. subst r.
  unfold WifiMotor.connect.
  destruct (dict_get signal_map (py_str (action i))) as [sg|] eqn:D.
  - destruct (dict_get_some_inv _ _ D) as [a [Ha Hs]]. subst sg.
    rewrite (truthy_code a).
    destruct self as [cfg [h|]]; unfold_wifi; run_eff; split_match;
      cbn; repeat split; try lia; eauto 10.
  - cbn [truthy].
    destruct self as [cfg [h|]]; unfold_wifi; run_eff; split_match;
      cbn; repeat split; try lia; eauto.
Qed.

(** X1.  When the guard cannot open the transport, [connect] drops the
    command: it returns without raising, writes nothing, logs the
    failure of the open and nothing else, and leaves the connector
    without a handle.  This holds for every input, on the serial
    connector (the constructor of the port raises) and on the UDP
    connector (the creation of the socket or the setting of its timeout
    raises). *)
Theorem X1_failed_open_drops_the_command :
  (forall w i self e,
      SerialMotor.connected self = false ->
      SerialMotor.Serial_reply w (SerialMotor.port (SerialMotor.config self))
        (SerialMotor.baudrate (SerialMotor.config self)) = Raises e ->
      SerialMotor.connect w i self =
        (Returns tt, serial_disconnected (SerialMotor.config self),
         [SerialOpen (SerialMotor.port (SerialMotor.config self))
            (SerialMotor.baudrate (SerialMotor.config self)) 1;
          Log ERROR ("Failed to open Serial Port "
                     ++ SerialMotor.port (SerialMotor.config self)
                     ++ ": " ++ e)])) /\
  (forall w i cfg,
      local_socket_created w = false ->
      let r := WifiMotor.connect w i (wifi_disconnected cfg) in
      outcome r = Returns tt /\ self_after r = wifi_disconnected cfg /\
      writes (trace r) = [] /\ logged INFO (trace r) = [] /\
      length (logged ERROR (trace r)) = 1).
Proof.
  split.
  - intros w i self e Hd Hr.
    assert (Hn : SerialMotor.needs_open self = true).
    { unfold SerialMotor.connected in Hd. now apply negb_false_iff in Hd. }
    unfold SerialMotor.connect. unfold bind at 1.
    rewrite (serial_ensure_open_fails w self e Hn Hr). reflexivity.
  - intros w i cfg Hl r.
    assert (E : exists tr,
               r = (Returns tt, wifi_disconnected cfg, tr) /\
               writes tr = [] /\ logged INFO tr = [] /\
               length (logged ERROR tr) = 1).
    { subst r. unfold local_socket_created in Hl.
      unfold WifiMotor.connect. unfold bind at 1. unfold wifi_disconnected.
      destruct (WifiMotor.socket_reply w) as [h|e] eqn:Hs.
      - destruct (WifiMotor.settimeout_reply w h) as [[]|e] eqn:Ht;
          [ discriminate | ].
        rewrite (wifi_ensure_settimeout_raises w cfg h e Hs Ht).
        eexists. repeat split.
      - rewrite (wifi_ensure_socket_raises w cfg e Hs).
        eexists. repeat split. }
    destruct E as (tr & -> & Hw & Hi & He). repeat split; assumption.
Qed.

(** X1 on a run: the port COM3 is missing and "forward" is dispatched. *)
Lemma X1_failed_open_witness :
  SerialMotor.connect
    (serial_world (Raises "could not open port 'COM3'") (Returns tt) (Returns tt))
    {| action := Plain "forward" |}
    (serial_disconnected SerialMotor.default_config) =
    (Returns tt, serial_disconnected SerialMotor.default_config,
     [SerialOpen "COM3" 115200 1;
      Log ERROR "Failed to open Serial Port COM3: could not open port 'COM3'"]).
Proof.
  exact (proj1 X1_failed_open_drops_the_command
           (serial_world (Raises "could not open port 'COM3'")
              (Returns tt) (Returns tt))
           {| action := Plain "forward" |}
           (serial_disconnected SerialMotor.default_config)
           "could not open port 'COM3'" eq_refl eq_refl).
Defined.

(** ** What leaves [connect], by the class of the exception *)

(** Unfold the monad with classes and compute. *)
Ltac run_effC :=
  cbv [bindC except_Exception except_all retC lift callC internalC
       of_Exception outcomeC self_afterC traceC
       bind try_except ret raise get put modify emit call log
       outcome self_after trace] in *;
  cbn in *.

Ltac unfold_by_class :=
  unfold SerialMotorByClass.connect, SerialMotorByClass._ensure_connection,
    SerialMotorByClass.serial_Serial, SerialMotorByClass.ser_write,
    SerialMotorByClass.ser_close, SerialMotorByClass.of_Exceptions,
    WifiMotorByClass.connect, WifiMotorByClass._ensure_connection,
    WifiMotorByClass.sock_sendto, WifiMotorByClass.sock_close,
    WifiMotorByClass.of_Exceptions in *.


(** On a device that raises instances of [Exception] only, the two
    embeddings of [SerialMotor.connect] agree. *)
Lemma serial_connect_on_Exceptions :
  forall w i self,
    SerialMotorByClass.connect (SerialMotorByClass.of_Exceptions w) i self =
    lift (SerialMotor.connect w i) self.
Proof.
  intros w i self.
  unfold SerialMotor.connect, SerialMotorByClass.connect.
  destruct (truthy (dict_get signal_map (py_str (action i))));
    destruct self as [cfg [[h o]|]]; unfold_by_class; unfold_serial; run_effC;
    repeat match goal with
      | |- context [match ?x with _ => _ end] =>
          lazymatch x with
          | context [match _ with _ => _ end] => fail
          | _ => destruct x eqn:?; cbn in *
          end
      end; try reflexivity; try congruence.
Qed.

(** The same for [WifiMotor.connect]. *)
Lemma wifi_connect_on_Exceptions :
  forall w i self,
    WifiMotorByClass.connect (WifiMotorByClass.of_Exceptions w) i self =
    lift (WifiMotor.connect w i) self.
Proof.
  intros w i self.
  unfold WifiMotor.connect, WifiMotorByClass.connect.
  destruct (truthy (dict_get signal_map (py_str (action i))));
    destruct self as [cfg [h|]]; unfold_by_class; unfold_wifi; run_effC;
    repeat match goal with
      | |- context [match ?x with _ => _ end] =>
          lazymatch x with
          | context [match _ with _ => _ end] => fail
          | _ => destruct x eqn:?; cbn in *
          end
      end; try reflexivity; try congruence.
Qed.

Lemma value_inj : forall a b, value a = value b -> a = b.
Proof. intros [] []; cbn; intros H; try reflexivity; discriminate. Qed.

(** Split on the replies the goal still matches on, innermost first. *)
Ltac split_replies :=
  repeat (cbn in *; match goal with
    | |- context [match ?x with _ => _ end] =>
        lazymatch x with
        | context [match _ with _ => _ end] => fail
        | negb ?o => destruct o eqn:?
        | is_Exception ?o => destruct o as [[] ?]
        | _ => destruct x eqn:?
        end
    | |- context [if ?x then _ else _] =>
        lazymatch x with
        | context [match _ with _ => _ end] => fail
        | is_Exception ?o => destruct o as [[] ?]
        | _ => destruct x eqn:?
        end
    end).

Ltac open_goal :=
  repeat match goal with
    | |- _ /\ _ => split
    | |- forall _, _ => intro
    end.

Ltac use_hyps :=
  repeat (cbn in *; match goal with
    | H : _ /\ _ |- _ => destruct H
    | H : exists _, _ |- _ => destruct H
    | H : _ \/ _ |- _ => destruct H
    | H : ReturnsC _ = ReturnsC _ |- _ => inversion H; clear H; subst
    | H : RaisesC _ = RaisesC _ |- _ => inversion H; clear H; subst
    | H : Some _ = Some _ |- _ => inversion H; clear H; subst
    | H : value _ = value _ |- _ => apply value_inj in H; subst
    | H1 : ?a = value _, H2 : ?a = value _ |- _ => rewrite H1 in H2
    | H1 : ?a = _, H2 : ?a = _ |- _ =>
        lazymatch type of H1 with
        | _ = ReturnsC _ => idtac | _ = RaisesC _ => idtac
        end;
        rewrite H1 in H2
    end); cbn in *.

(** X2.  Which exceptions can leave [connect], by their class.
    Serial connector: what leaves [connect] is not an instance of
    [Exception], no [close()] was called, and it was raised either by
    [serial.Serial(...)] when the guard had to open (the object is then
    as before) or by [write()] on the port the object holds afterwards;
    conversely such an exception of [serial.Serial(...)] or of [write()]
    does leave, and after the one of [write()] the port is still held:
    it is neither closed nor dropped.  So no instance of [Exception]
    leaves, and nothing that [close()] raises leaves, whatever its class
    (the bare [except:]); on a device that raises instances of
    [Exception] only, [connect] returns.  UDP connector: what leaves is
    either not an instance of [Exception], raised with no [close()] by
    [socket.socket(...)], by [settimeout()] (the new socket then stays
    held) or by [sendto()]; or it is what [sock.close()] raised, of
    either class, in the handler of a send that raised an instance of
    [Exception], after exactly one close, the socket still held. *)
Theorem X2_exceptions_leaving_connect :
  (forall w i self,
      let r := SerialMotorByClass.connect w i self in
      let cfg := SerialMotor.config self in
      (forall x,
          outcomeC r = RaisesC x ->
          is_Exception x = false /\ closes (traceC r) = 0 /\
          ((SerialMotor.needs_open self = true /\
            SerialMotorByClass.Serial_reply w (SerialMotor.port cfg)
              (SerialMotor.baudrate cfg) = RaisesC x /\
            self_afterC r = self) \/
           (exists s a,
               SerialMotor.ser (self_afterC r) = Some s /\
               py_str (action i) = value a /\
               SerialMotorByClass.write_reply w (SerialMotor.fd s) (code a ++ nl)
                 = RaisesC x))) /\
      (forall x,
          is_Exception x = false ->
          SerialMotor.needs_open self = true ->
          SerialMotorByClass.Serial_reply w (SerialMotor.port cfg)
            (SerialMotor.baudrate cfg) = RaisesC x ->
          outcomeC r = RaisesC x) /\
      (forall x s a,
          is_Exception x = false ->
          (SerialMotor.ser self = Some s /\ SerialMotor.is_open s = true) \/
          (SerialMotor.needs_open self = true /\
           SerialMotorByClass.Serial_reply w (SerialMotor.port cfg)
             (SerialMotor.baudrate cfg) = ReturnsC s) ->
          py_str (action i) = value a ->
          SerialMotorByClass.write_reply w (SerialMotor.fd s) (code a ++ nl)
            = RaisesC x ->
          outcomeC r = RaisesC x /\ SerialMotor.ser (self_afterC r) = Some s) /\
      (1 <= closes (traceC r) -> outcomeC r = ReturnsC tt) /\
      (forall w0,
          outcomeC (SerialMotorByClass.connect
                      (SerialMotorByClass.of_Exceptions w0) i self)
          = ReturnsC tt)) /\
  (forall w i self,
      let r := WifiMotorByClass.connect w i self in
      let cfg := WifiMotor.config self in
      (forall x,
          outcomeC r = RaisesC x ->
          (is_Exception x = false /\ closes (traceC r) = 0 /\
           ((WifiMotor.sock self = None /\
             WifiMotorByClass.socket_reply w = RaisesC x /\
             self_afterC r = self) \/
            (exists h,
                WifiMotor.sock self = None /\
                WifiMotorByClass.socket_reply w = ReturnsC h /\
                WifiMotorByClass.settimeout_reply w h = RaisesC x /\
                WifiMotor.sock (self_afterC r) = Some h) \/
            (exists h a,
                WifiMotor.sock (self_afterC r) = Some h /\
                py_str (action i) = value a /\
                WifiMotorByClass.sendto_reply w h (code a)
                  (WifiMotor.ip_address cfg) (WifiMotor.port cfg) = RaisesC x))) \/
          (exists h a y,
              is_Exception y = true /\
              py_str (action i) = value a /\
              WifiMotorByClass.sendto_reply w h (code a)
                (WifiMotor.ip_address cfg) (WifiMotor.port cfg) = RaisesC y /\
              WifiMotorByClass.close_reply w h = RaisesC x /\
              closes (traceC r) = 1 /\
              WifiMotor.sock (self_afterC r) = Some h)) /\
      (forall x h,
          is_Exception x = false ->
          WifiMotor.sock self = None ->
          WifiMotorByClass.socket_reply w = ReturnsC h ->
          WifiMotorByClass.settimeout_reply w h = RaisesC x ->
          outcomeC r = RaisesC x /\ WifiMotor.sock (self_afterC r) = Some h)).
Proof.
  split.
  - intros w i [cfg sr] r cfg0. subst r cfg0.
    split; [ | split; [ | split; [ | split ] ] ].
    5: { intros w0. rewrite serial_connect_on_Exceptions.
         pose proof (proj1 (serial_connect_shape w0 i
                              {| SerialMotor.config := cfg;
                                 SerialMotor.ser := sr |})) as R.
         cbn zeta in R. unfold lift, outcomeC.
         destruct (SerialMotor.connect w0 i _) as [[o s1] t1].
         cbn in R. subst o. reflexivity. }
    all: unfold SerialMotorByClass.connect;
      destruct (dict_get signal_map (py_str (action i))) as [sg|] eqn:D;
      [ destruct (dict_get_some_inv _ _ D) as [a [Ha Hs]]; subst sg; clear D;
        rewrite (truthy_code a)
      | pose proof (proj1 (dict_get_none_iff _) D) as N; clear D;
        cbn [truthy] ];
      destruct sr as [[h o]|]; unfold_by_class; unfold_serial; run_effC;
      split_replies; open_goal; use_hyps;
      try discriminate; try congruence; try lia; auto.
    all: try (left; repeat split; auto; fail).
    all: try (right; do 2 eexists; repeat split; eauto; fail).
    all: try (exfalso; eapply N; symmetry; eassumption).
  - intros w i [cfg sk] r cfg0. subst r cfg0.
    unfold WifiMotorByClass.connect.
    destruct (dict_get signal_map (py_str (action i))) as [sg|] eqn:D.
    + destruct (dict_get_some_inv _ _ D) as [a [Ha Hs]]. subst sg. clear D.
      rewrite (truthy_code a).
      destruct sk as [h|]; unfold_by_class; unfold_wifi; run_effC;
        split_replies; open_goal; use_hyps;
        try discriminate; try congruence; try lia; auto.
      all: try (right;
                match goal with
                | Hs : WifiMotorByClass.sendto_reply _ ?h _ _ _ = RaisesC ?y |- _ =>
                    exists h; eexists; exists y; repeat split; eauto
                end; fail).
      all: try (left; split; [ reflexivity | split; [ reflexivity | ] ];
                first [ left; repeat split; auto; fail
                      | right; left; eexists; repeat split; eauto; fail
                      | right; right; do 2 eexists; repeat split; eauto; fail ]).
    + pose proof (proj1 (dict_get_none_iff _) D) as N. clear D.
      cbn [truthy].
      destruct sk as [h|]; unfold_by_class; unfold_wifi; run_effC;
        split_replies; open_goal; use_hyps;
        try discriminate; try congruence; try lia; auto.
      all: try (left; split; [ reflexivity | split; [ reflexivity | ] ];
                first [ left; repeat split; auto; fail
                      | right; left; eexists; repeat split; eauto; fail
                      | right; right; do 2 eexists; repeat split; eauto; fail ]).
Qed.

(** X2 on a run: a [KeyboardInterrupt] during [write()] on an open port
    leaves [connect], and the port stays held. *)
Lemma X2_exceptions_leaving_connect_witness :
  let interrupt := {| is_Exception := false; text := EmptyString |} in
  let w := {| SerialMotorByClass.Serial_reply :=
                fun _ _ => RaisesC {| is_Exception := true;
                                      text := "could not open port" |};
              SerialMotorByClass.write_reply := fun _ _ => RaisesC interrupt;
              SerialMotorByClass.close_reply := fun _ => ReturnsC tt |} in
  let self := serial_connected SerialMotor.default_config 3 in
  let r := SerialMotorByClass.connect w {| action := Plain "forward" |} self in
  outcomeC r = RaisesC interrupt /\
  SerialMotor.ser (self_afterC r) = SerialMotor.ser self.
Proof.
  intros interrupt w self r.
  exact (proj1 (proj2 (proj2 (proj1 X2_exceptions_leaving_connect w
                                {| action := Plain "forward" |} self)))
           interrupt
           {| SerialMotor.fd := 3; SerialMotor.is_open := true |}
           FORWARD eq_refl (or_introl (conj eq_refl eq_refl)) eq_refl eq_refl).
Defined.

(** A [KeyboardInterrupt] of [close()] in the clean-up of the serial
    connector is swallowed by the bare [except:]; the port is dropped. *)
Example serial_close_interrupted :
  let w := {| SerialMotorByClass.Serial_reply :=
                fun _ _ => RaisesC {| is_Exception := true;
                                      text := "could not open port" |};
              SerialMotorByClass.write_reply :=
                fun _ _ => RaisesC {| is_Exception := true;
                                      text := "write failed" |};
              SerialMotorByClass.close_reply :=
                fun _ => RaisesC {| is_Exception := false;
                                    text := EmptyString |} |} in
  let r := SerialMotorByClass.connect w {| action := Plain "forward" |}
             (serial_connected SerialMotor.default_config 3) in
  outcomeC r = ReturnsC tt /\
  self_afterC r = serial_disconnected SerialMotor.default_config /\
  closes (traceC r) = 1.
Proof. repeat split. Qed.

(** X3.  One dispatch never retries and never sends anything but a code
    of the table.  For every state, input and behaviour of the device,
    [connect] makes at most one attempt to open, at most one close and at
    most one write; the payload of the write is the code of the directive
    whose value is [str(action)], followed by a line feed on the serial
    line and bare on UDP. *)
Theorem X3_one_attempt_one_code_per_dispatch :
  (forall w i self,
      let r := SerialMotor.connect w i self in
      opens (trace r) <= 1 /\ closes (trace r) <= 1 /\
      (writes (trace r) = [] \/
       exists a, py_str (action i) = value a /\
                 writes (trace r) = [code a ++ nl])) /\
  (forall w i self,
      let r := WifiMotor.connect w i self in
      opens (trace r) <= 1 /\ closes (trace r) <= 1 /\
      (writes (trace r) = [] \/
       exists a, py_str (action i) = value a /\ writes (trace r) = [code a])).
Proof.
  split.
  - intros w i self. apply (serial_connect_shape w i self).
  - intros w i self. apply (wifi_connect_shape w i self).
Qed.

(** ** The life of a transport handle *)

(** A dispatch on a connector without a handle, the open succeeding:
    the transport is opened and the code goes to the new handle. *)
Lemma serial_dispatch_from_disconnected :
  forall w cfg c s',
    SerialMotor.Serial_reply w (SerialMotor.port cfg) (SerialMotor.baudrate cfg)
      = Returns s' ->
    exists o st rest,
      SerialMotor.connect w {| action := Plain (value c) |}
        (serial_disconnected cfg) =
        (o, st,
         SerialOpen (SerialMotor.port cfg) (SerialMotor.baudrate cfg) 1
         :: Log INFO ("Successfully opened Serial Port: " ++ SerialMotor.port cfg)
         :: Log INFO ("Received Motor Command: " ++ value c)
         :: SerialWrite (SerialMotor.fd s') (code c ++ nl) :: rest) /\
      opens rest = 0 /\ writes rest = [].
Proof.
  intros w cfg c s' Ho.
  unfold SerialMotor.connect. unfold bind at 1.
  rewrite (serial_ensure_open_ok w (serial_disconnected cfg) s' eq_refl Ho).
  destruct c; cbn [value code]; unfold_serial; run_eff;
    destruct (SerialMotor.write_reply w _ _); cbn;
    try destruct (SerialMotor.close_reply w _); cbn;
    do 3 eexists; repeat split.
Qed.

Lemma wifi_dispatch_from_disconnected :
  forall w cfg c h',
    WifiMotor.socket_reply w = Returns h' ->
    WifiMotor.settimeout_reply w h' = Returns tt ->
    exists o st rest,
      WifiMotor.connect w {| action := Plain (value c) |}
        (wifi_disconnected cfg) =
        (o, st,
         SocketCreate :: SocketSetTimeout h'
         :: Log INFO "UDP Socket created successfully."
         :: Log INFO ("Received Motor Command: " ++ value c)
         :: SocketSendTo h' (code c) (WifiMotor.ip_address cfg)
              (WifiMotor.port cfg)
         :: rest) /\
      opens rest = 0 /\ writes rest = [].
Proof.
  intros w cfg c h' Hs Ht.
  unfold WifiMotor.connect. unfold bind at 1. unfold wifi_disconnected.
  rewrite (wifi_ensure_open_ok w cfg h' Hs Ht).
  destruct c; cbn [value code]; unfold_wifi; run_eff;
    destruct (WifiMotor.sendto_reply w _ _ _ _); cbn;
    try destruct (WifiMotor.close_reply w _); cbn;
    do 3 eexists; repeat split.
Qed.

(** X4.  [close()] and what follows it, on both connectors.  When the
    transport closes, [close()] makes the one close call and forgets the
    handle; a second [close()] does nothing; and the next dispatch opens
    the transport anew and sends its code to the new handle, with one
    open and one write in all. *)
Theorem X4_close_then_dispatch_reopens :
  (forall w1 w2 w3 cfg h c s',
      SerialMotor.close_reply w1 h = Returns tt ->
      SerialMotor.Serial_reply w3 (SerialMotor.port cfg) (SerialMotor.baudrate cfg)
        = Returns s' ->
      let r1 := SerialMotor.close w1 (serial_connected cfg h) in
      let r2 := SerialMotor.close w2 (self_after r1) in
      let r3 := SerialMotor.connect w3 {| action := Plain (value c) |}
                  (self_after r2) in
      r1 = (Returns tt, serial_disconnected cfg, [SerialClose h]) /\
      r2 = (Returns tt, serial_disconnected cfg, []) /\
      opens (trace r3) = 1 /\
      writes (trace r3) = [code c ++ nl] /\
      In (SerialWrite (SerialMotor.fd s') (code c ++ nl)) (trace r3)) /\
  (forall w1 w2 w3 cfg h c h',
      WifiMotor.close_reply w1 h = Returns tt ->
      WifiMotor.socket_reply w3 = Returns h' ->
      WifiMotor.settimeout_reply w3 h' = Returns tt ->
      let r1 := WifiMotor.close w1 (wifi_connected cfg h) in
      let r2 := WifiMotor.close w2 (self_after r1) in
      let r3 := WifiMotor.connect w3 {| action := Plain (value c) |}
                  (self_after r2) in
      r1 = (Returns tt, wifi_disconnected cfg, [SocketClose h]) /\
      r2 = (Returns tt, wifi_disconnected cfg, []) /\
      opens (trace r3) = 1 /\
      writes (trace r3) = [code c] /\
      In (SocketSendTo h' (code c) (WifiMotor.ip_address cfg) (WifiMotor.port cfg))
         (trace r3)).
Proof.
  split.
  - intros w1 w2 w3 cfg h c s' Hc Ho r1 r2 r3.
    assert (E1 : r1 = (Returns tt, serial_disconnected cfg, [SerialClose h]))
      by (apply (proj1 close_when_connected); exact Hc).
    assert (E2 : r2 = (Returns tt, serial_disconnected cfg, []))
      by (subst r2; rewrite E1; reflexivity).
    split; [ exact E1 | ]. split; [ exact E2 | ].
    destruct (serial_dispatch_from_disconnected w3 cfg c s' Ho)
      as (o & st & rest & E3 & Hop & Hwr).
    subst r3. rewrite E2. cbn [self_after fst snd]. rewrite E3.
    cbn [trace snd]. unfold opens in *. cbn. rewrite Hop, Hwr.
    repeat split. auto.
  - intros w1 w2 w3 cfg h c h' Hc Hs Ht r1 r2 r3.
    assert (E1 : r1 = (Returns tt, wifi_disconnected cfg, [SocketClose h]))
      by (apply (proj2 close_when_connected); exact Hc).
    assert (E2 : r2 = (Returns tt, wifi_disconnected cfg, []))
      by (subst r2; rewrite E1; reflexivity).
    split; [ exact E1 | ]. split; [ exact E2 | ].
    destruct (wifi_dispatch_from_disconnected w3 cfg c h' Hs Ht)
      as (o & st & rest & E3 & Hop & Hwr).
    subst r3. rewrite E2. cbn [self_after fst snd]. rewrite E3.
    cbn [trace snd]. unfold opens in *. cbn. rewrite Hop, Hwr.
    repeat split. auto 6.
Qed.

(** X4 on a run: COM3 is closed twice, then "stop" is dispatched. *)
Lemma X4_close_then_dispatch_witness :
  let w := serial_world
             (Returns {| SerialMotor.fd := 2; SerialMotor.is_open := true |})
             (Returns tt) (Returns tt) in
  let cfg := SerialMotor.default_config in
  let r1 := SerialMotor.close w (serial_connected cfg 1) in
  let r2 := SerialMotor.close w (self_after r1) in
  let r3 := SerialMotor.connect w {| action := Plain (value STOP) |}
              (self_after r2) in
  r1 = (Returns tt, serial_disconnected cfg, [SerialClose 1]) /\
  r2 = (Returns tt, serial_disconnected cfg, []) /\
  opens (trace r3) = 1 /\
  writes (trace r3) = [code STOP ++ nl] /\
  In (SerialWrite 2 (code STOP ++ nl)) (trace r3).
Proof.
  intros w cfg.
  exact (proj1 X4_close_then_dispatch_reopens w w w cfg 1 STOP
           {| SerialMotor.fd := 2; SerialMotor.is_open := true |}
           eq_refl eq_refl).
Defined.



(** X6.  Where a write can go.  A write of [SerialMotor.connect] goes to
    the port that was held and open, or to the port the constructor
    returned in this very call; a send of [WifiMotor.connect] goes to the
    configured address and port, through the socket that was held, or
    through the one created in this very call with its timeout set. *)
Theorem X6_writes_go_to_the_guarded_handle :
  (forall w i self h p,
      In (SerialWrite h p) (trace (SerialMotor.connect w i self)) ->
      (exists s, SerialMotor.ser self = Some s /\ SerialMotor.is_open s = true /\
                 SerialMotor.fd s = h) \/
      (SerialMotor.connected self = false /\
       exists s, SerialMotor.Serial_reply w
                   (SerialMotor.port (SerialMotor.config self))
                   (SerialMotor.baudrate (SerialMotor.config self)) = Returns s /\
                 SerialMotor.fd s = h)) /\
  (forall w i self h p ip pt,
      In (SocketSendTo h p ip pt) (trace (WifiMotor.connect w i self)) ->
      ip = WifiMotor.ip_address (WifiMotor.config self) /\
      pt = WifiMotor.port (WifiMotor.config self) /\
      (WifiMotor.sock self = Some h \/
       (WifiMotor.sock self = None /\ WifiMotor.socket_reply w = Returns h /\
        WifiMotor.settimeout_reply w h = Returns tt))).
Proof.
  split.
  - intros w i [cfg [[h0 o]|]] h p H; revert H;
      unfold SerialMotor.connect;
      destruct (truthy (dict_get signal_map (py_str (action i))));
      unfold_serial; run_eff; split_match; cbn; intros H;
      repeat match goal with
        | H : _ \/ _ |- _ => destruct H
        | H : False |- _ => destruct H
        | H : SerialWrite _ _ = SerialWrite _ _ |- _ => inversion H; clear H; subst
        | H : _ = SerialWrite _ _ |- _ => discriminate H
        end;
      eauto 8.
  - intros w i [cfg [h0|]] h p ip pt H; revert H;
      unfold WifiMotor.connect;
      destruct (truthy (dict_get signal_map (py_str (action i))));
      unfold_wifi; run_eff; split_match; cbn; intros H;
      repeat match goal with
        | H : _ \/ _ |- _ => destruct H
        | H : False |- _ => destruct H
        | H : SocketSendTo _ _ _ _ = SocketSendTo _ _ _ _ |- _ =>
            inversion H; clear H; subst
        | H : _ = SocketSendTo _ _ _ _ |- _ => discriminate H
        | u : unit |- _ => destruct u
        end;
      auto 8.
Qed.

(** X6 on a run: "forward" on a connected serial connector is written
    to the port that is held. *)
Lemma X6_writes_go_to_the_guarded_handle_witness :
  (exists s,
      SerialMotor.ser (serial_connected SerialMotor.default_config 7) = Some s /\
      SerialMotor.is_open s = true /\ SerialMotor.fd s = 7) \/
  (SerialMotor.connected (serial_connected SerialMotor.default_config 7) = false /\
   exists s,
     SerialMotor.Serial_reply
       (serial_world (Raises "busy") (Returns tt) (Returns tt))
       (SerialMotor.port (SerialMotor.config
                            (serial_connected SerialMotor.default_config 7)))
       (SerialMotor.baudrate (SerialMotor.config
                                (serial_connected SerialMotor.default_config 7)))
       = Returns s /\ SerialMotor.fd s = 7).
Proof.
  apply (proj1 X6_writes_go_to_the_guarded_handle
           (serial_world (Raises "busy") (Returns tt) (Returns tt))
           {| action := Plain "forward" |}
           (serial_connected SerialMotor.default_config 7) 7 ("F" ++ nl)).
  cbn. auto.
Defined.

(** X7.  Retry on the next invocation.  After a dispatch whose write
    failed (and, on UDP, whose close returned), the next dispatch opens
    the transport anew and writes its own code to the new handle; the
    command that failed is not sent again. *)
Theorem X7_dispatch_after_failed_write :
  (forall w1 w2 cfg h c c' e s',
      SerialMotor.write_reply w1 h (code c ++ nl) = Raises e ->
      SerialMotor.Serial_reply w2 (SerialMotor.port cfg) (SerialMotor.baudrate cfg)
        = Returns s' ->
      let r1 := SerialMotor.connect w1 {| action := Plain (value c) |}
                  (serial_connected cfg h) in
      let r2 := SerialMotor.connect w2 {| action := Plain (value c') |}
                  (self_after r1) in
      outcome r1 = Returns tt /\
      writes (trace r1) = [code c ++ nl] /\
      opens (trace r2) = 1 /\
      writes (trace r2) = [code c' ++ nl] /\
      In (SerialWrite (SerialMotor.fd s') (code c' ++ nl)) (trace r2)) /\
  (forall w1 w2 cfg h c c' e h',
      WifiMotor.sendto_reply w1 h (code c) (WifiMotor.ip_address cfg)
        (WifiMotor.port cfg) = Raises e ->
      WifiMotor.close_reply w1 h = Returns tt ->
      WifiMotor.socket_reply w2 = Returns h' ->
      WifiMotor.settimeout_reply w2 h' = Returns tt ->
      let r1 := WifiMotor.connect w1 {| action := Plain (value c) |}
                  (wifi_connected cfg h) in
      let r2 := WifiMotor.connect w2 {| action := Plain (value c') |}
                  (self_after r1) in
      outcome r1 = Returns tt /\
      writes (trace r1) = [code c] /\
      opens (trace r2) = 1 /\
      writes (trace r2) = [code c'] /\
      In (SocketSendTo h' (code c') (WifiMotor.ip_address cfg) (WifiMotor.port cfg))
         (trace r2)).
Proof.
  split.
  - intros w1 w2 cfg h c c' e s' Hw Ho r1 r2.
    destruct (serial_write_failure_discards c w1 cfg h e Hw) as (O1 & S1 & W1 & _).
    fold r1 in O1, S1, W1.
    split; [ exact O1 | ]. split; [ exact W1 | ].
    destruct (serial_dispatch_from_disconnected w2 cfg c' s' Ho)
      as (o & st & rest & E & Hop & Hwr).
    subst r2. rewrite S1, E. cbn [trace snd]. unfold opens in *. cbn.
    rewrite Hop, Hwr. repeat split. auto.
  - intros w1 w2 cfg h c c' e h' Hw Hc Hs Ht r1 r2.
    destruct (wifi_write_failure_discards_when_close_returns c w1 cfg h e Hw Hc)
      as (O1 & S1 & W1 & _).
    fold r1 in O1, S1, W1.
    split; [ exact O1 | ]. split; [ exact W1 | ].
    destruct (wifi_dispatch_from_disconnected w2 cfg c' h' Hs Ht)
      as (o & st & rest & E & Hop & Hwr).
    subst r2. rewrite S1, E. cbn [trace snd]. unfold opens in *. cbn.
    rewrite Hop, Hwr. repeat split. auto 6.
Qed.

(** X7 on a run: "forward" fails on port 1, then "stop" goes to port 2. *)
Lemma X7_dispatch_after_failed_write_witness :
  let w1 := serial_world
              (Returns {| SerialMotor.fd := 2; SerialMotor.is_open := true |})
              (Raises "device unplugged") (Returns tt) in
  let w2 := serial_world
              (Returns {| SerialMotor.fd := 2; SerialMotor.is_open := true |})
              (Returns tt) (Returns tt) in
  let cfg := SerialMotor.default_config in
  let r1 := SerialMotor.connect w1 {| action := Plain (value FORWARD) |}
              (serial_connected cfg 1) in
  let r2 := SerialMotor.connect w2 {| action := Plain (value STOP) |}
              (self_after r1) in
  outcome r1 = Returns tt /\
  writes (trace r1) = [code FORWARD ++ nl] /\
  opens (trace r2) = 1 /\
  writes (trace r2) = [code STOP ++ nl] /\
  In (SerialWrite 2 (code STOP ++ nl)) (trace r2).
Proof.
  intros w1 w2 cfg.
  exact (proj1 X7_dispatch_after_failed_write w1 w2 cfg 1 FORWARD STOP
           "device unplugged"
           {| SerialMotor.fd := 2; SerialMotor.is_open := true |}
           eq_refl eq_refl).
Defined.

(** ** The operator-command source: buffer, thread, pipeline *)

Lemma in_turn_cons :
  forall (S : Type) (m : Eff S unit) (rest : list (Eff S unit)) (s s1 : S) t1,
    m s = (Returns tt, s1, t1) ->
    in_turn (m :: rest) s =
      (outcome (in_turn rest s1), self_after (in_turn rest s1),
       (t1 ++ trace (in_turn rest s1))%list).
Proof.
  intros S m rest s s1 t1 H. cbn [in_turn]. unfold bind. rewrite H.
  destruct (in_turn rest s1) as [[o s2] t2]. reflexivity.
Qed.

(** Every call returns, and leaves a buffer of at most one entry so. *)
Lemma control_call_keeps_one_entry :
  forall c self,
    length (Esp32Control.messages self) <= 1 ->
    exists self' tr,
      control_call c self = (Returns tt, self', tr) /\
      length (Esp32Control.messages self') <= 1.
Proof.
  intros c [rn ms d q] H. cbn in H.
  destruct ms as [|m [|m' ms]]; [ | | cbn in H; lia ];
    destruct c as [| now [raw|] | now | | [line | | e]];
    unfold control_call; unfold_control; run_eff;
    try destruct q; try destruct (str_truthy (strip line));
    cbn; do 2 eexists; (split; [ reflexivity | cbn; lia ]).
Qed.

(** X8.  The text buffer of the operator-command source never holds
    more than one entry: from a buffer of at most one entry (the empty
    one of [__init__] is such), any sequence of calls of [_poll],
    [raw_to_text], [formatted_latest_buffer], [stop] and passes of the
    input loop, with any arguments, returns without raising and leaves at
    most one entry. *)
Theorem X8_text_buffer_holds_at_most_one_entry :
  forall (calls : list ControlCall) (self : Esp32Control.t),
    length (Esp32Control.messages self) <= 1 ->
    let r := in_turn (map control_call calls) self in
    outcome r = Returns tt /\
    length (Esp32Control.messages (self_after r)) <= 1.
Proof.
  induction calls as [|c calls IH]; intros self H r; subst r.
  - cbn. auto.
  - destruct (control_call_keeps_one_entry c self H) as (s1 & t1 & E & H1).
    cbn [map]. rewrite (in_turn_cons _ _ _ _ _ _ E).
    cbn [outcome self_after fst snd]. apply (IH s1 H1).
Qed.

(** X8 on a run from [__init__]. *)
Lemma X8_text_buffer_witness :
  let calls := [CallInputBody (Esp32Control.Line "forward"); CallPoll;
                CallRawToText 1%Z (Some "forward");
                CallRawToText 2%Z (Some "left"); CallDrain 3%Z;
                CallRawToText 4%Z (Some "stop"); CallStop] in
  let r := in_turn (map control_call calls) Esp32Control.init in
  outcome r = Returns tt /\
  length (Esp32Control.messages (self_after r)) <= 1.
Proof.
  intros calls.
  apply (X8_text_buffer_holds_at_most_one_entry calls Esp32Control.init).
  cbn. lia.
Defined.

Lemma join_space_cons :
  forall m t rest,
    join_space ((m ++ " " ++ t) :: rest) = m ++ " " ++ join_space (t :: rest).
Proof.
  intros m t [|x rest]; cbn [join_space]; [ reflexivity | ].
  now rewrite !string_app_assoc.
Qed.

Lemma control_raw_to_text_first :
  forall now rn d q t,
    Esp32Control.raw_to_text now (Some t) (control_state rn [] d q) =
      (Returns tt, control_state rn [t] d q, []).
Proof. reflexivity. Qed.

Lemma control_raw_to_text_next :
  forall now rn m d q t,
    Esp32Control.raw_to_text now (Some t) (control_state rn [m] d q) =
      (Returns tt, control_state rn [m ++ " " ++ t] d q, []).
Proof. reflexivity. Qed.

Lemma control_produce_merges :
  forall texts rn m d q,
    control_produce texts (control_state rn [m] d q) =
      (Returns tt, control_state rn [join_space (m :: map snd texts)] d q, []).
Proof.
  induction texts as [|[now t] texts IH]; intros rn m d q; [ reflexivity | ].
  unfold control_produce. cbn [map fst snd].
  rewrite (in_turn_cons _ _ _ _ _ _ (control_raw_to_text_next now rn m d q t)).
  fold (control_produce texts). rewrite IH.
  cbn [outcome self_after trace fst snd app].
  now rewrite join_space_cons.
Qed.

(** X9.  What the drain returns after several productions.  From an
    empty buffer, producing one or more texts with no drain in between
    leaves the one entry [" ".join(texts)], in the order produced; the
    drain then returns ["User Command: "] followed by it, gives the same
    joined text once to [add_input] and once to [store_user_message], and
    leaves the buffer empty. *)
Theorem X9_drain_returns_the_texts_joined :
  forall (texts : list (Time * string)) (now : Time) (self : Esp32Control.t),
    Esp32Control.messages self = [] ->
    texts <> [] ->
    let produced := control_produce texts self in
    let r := Esp32Control.formatted_latest_buffer now (self_after produced) in
    outcome produced = Returns tt /\
    Esp32Control.messages (self_after produced) = [join_space (map snd texts)] /\
    outcome r = Returns (Some ("User Command: " ++ join_space (map snd texts))) /\
    trace r = [AddInput (Esp32Control.descriptor_for_LLM self)
                 (join_space (map snd texts)) now;
               StoreUserMessage (join_space (map snd texts))] /\
    Esp32Control.messages (self_after r) = [].
Proof.
  intros [|[t0 x] texts] now [rn ms d q] H Hne produced r;
    [ contradiction | ].
  cbn in H. subst ms.
  assert (E : produced =
                (Returns tt,
                 control_state rn [join_space (x :: map snd texts)] d q, [])).
  { subst produced. unfold control_produce. cbn [map fst snd].
    rewrite (in_turn_cons _ _ _ _ _ _ (control_raw_to_text_first t0 rn d q x)).
    fold (control_produce texts). now rewrite control_produce_merges. }
  subst r. rewrite E. cbn [outcome self_after fst snd map].
  rewrite (control_drain_nonempty now
             (control_state rn [join_space (x :: map snd texts)] d q)
             [] (join_space (x :: map snd texts)) eq_refl).
  repeat split.
Qed.

(** X9 on the texts "go", "left", "now": the drain returns
    "User Command: go left now". *)
Lemma X9_drain_returns_the_texts_joined_witness :
  let texts := [(1%Z, "go"); (2%Z, "left"); (3%Z, "now")] in
  let produced := control_produce texts Esp32Control.init in
  let r := Esp32Control.formatted_latest_buffer 9%Z (self_after produced) in
  outcome produced = Returns tt /\
  Esp32Control.messages (self_after produced) = [join_space (map snd texts)] /\
  outcome r = Returns (Some ("User Command: " ++ join_space (map snd texts))) /\
  trace r = [AddInput (Esp32Control.descriptor_for_LLM Esp32Control.init)
               (join_space (map snd texts)) 9%Z;
             StoreUserMessage (join_space (map snd texts))] /\
  Esp32Control.messages (self_after r) = [].
Proof.
  intros texts.
  apply (X9_drain_returns_the_texts_joined texts 9%Z Esp32Control.init).
  - reflexivity.
  - discriminate.
Defined.

Example drain_of_three_texts :
  outcome (Esp32Control.formatted_latest_buffer 9%Z
             (self_after (control_produce
                            [(1%Z, "go"); (2%Z, "left"); (3%Z, "now")]
                            Esp32Control.init)))
  = Returns (Some "User Command: go left now").
Proof. reflexivity. Qed.

(** One step of a run, and the rest of the run after it. *)
Lemma run_cons :
  forall st rest sys res s1 t1,
    Esp32Control.step st sys = (Returns res, s1, t1) ->
    trace (Esp32Control.run (st :: rest) sys) =
      (t1 ++ trace (Esp32Control.run rest s1))%list /\
    self_after (Esp32Control.run (st :: rest) sys) =
      self_after (Esp32Control.run rest s1).
Proof.
  intros st rest sys res s1 t1 H.
  assert (E : exists o,
             Esp32Control.run (st :: rest) sys =
               (o, self_after (Esp32Control.run rest s1),
                (t1 ++ trace (Esp32Control.run rest s1))%list)).
  { cbn [Esp32Control.run]. unfold bind at 1. rewrite H. unfold bind.
    destruct (Esp32Control.run rest s1) as [[[rs|e] s2] t2]; cbn;
      rewrite ?app_nil_r; eexists; reflexivity. }
  destruct E as [o ->]. split; reflexivity.
Qed.

Lemma step_when_stopped :
  forall st sys,
    Esp32Control.running (Esp32Control.self_of sys) = false ->
    exists res sys' tr,
      Esp32Control.step st sys = (Returns res, sys', tr) /\
      Esp32Control.running (Esp32Control.self_of sys') = false /\
      length (inputs tr) + pending_reads sys' <= pending_reads sys /\
      length (puts tr) <= length (inputs tr).
Proof.
  intros st [[rn ms d q] p] H. cbn in H. subst rn.
  destruct st as [| r | |]; unfold_control; run_eff; unfold pending_reads.
  - destruct p; cbn; do 3 eexists; repeat split; cbn; lia.
  - destruct p; cbn; try (do 3 eexists; repeat split; cbn; lia).
    destruct r as [line | | e]; cbn;
      try destruct (str_truthy (strip line)); cbn;
      do 3 eexists; repeat split; cbn; lia.
  - destruct q; cbn; do 3 eexists; repeat split; cbn; destruct p; lia.
  - do 3 eexists; repeat split; cbn; destruct p; lia.
Qed.

Lemma run_when_stopped :
  forall sched sys,
    Esp32Control.running (Esp32Control.self_of sys) = false ->
    let r := Esp32Control.run sched sys in
    Esp32Control.running (Esp32Control.self_of (self_after r)) = false /\
    length (inputs (trace r)) <= pending_reads sys /\
    length (puts (trace r)) <= length (inputs (trace r)).
Proof.
  induction sched as [|st rest IH]; intros sys H r; subst r.
  - cbn. repeat split; auto; lia.
  - destruct (step_when_stopped st sys H) as (res & s1 & t1 & E & R & B & P).
    destruct (run_cons st rest sys res s1 t1 E) as [Et Es].
    rewrite Et, Es, inputs_app, puts_app, !length_app.
    destruct (IH s1 R) as (R' & B' & P'). repeat split; auto; lia.
Qed.

(** X10.  What [stop()] stops.  After [stop()], whatever the thread,
    the scheduler and other callers do next (any schedule of steps): the
    flag stays cleared; the thread reads at most one more line, and only
    if it was already blocked in [input()] when [stop()] was called; and
    so at most one more item is put on the queue. *)
Theorem X10_after_stop_at_most_one_more_line :
  forall (sched : list Esp32Control.Step) (sys : Esp32Control.Sys),
    let r := Esp32Control.run (Esp32Control.StopCalled :: sched) sys in
    Esp32Control.running (Esp32Control.self_of (self_after r)) = false /\
    length (inputs (trace r)) <= pending_reads sys /\
    length (puts (trace r)) <= length (inputs (trace r)) /\
    length (puts (trace r)) <= 1.
Proof.
  intros sched [[rn ms d q] p] r. subst r.
  match goal with
  | |- context [Esp32Control.run (?st :: sched) ?s] =>
      destruct (run_cons st sched s None _ [] eq_refl) as [Et Es]
  end.
  rewrite Et, Es. cbn [app].
  match goal with
  | |- context [Esp32Control.run sched ?s] =>
      destruct (run_when_stopped sched s eq_refl) as (R & B & P)
  end.
  unfold pending_reads in *. cbn [Esp32Control.pc] in *.
  repeat split; auto; destruct p; lia.
Qed.

Lemma logged_app :
  forall lvl t1 t2, logged lvl (t1 ++ t2) = (logged lvl t1 ++ logged lvl t2)%list.
Proof.
  intros lvl. induction t1 as [|ev t1 IH]; intros t2; [ reflexivity | ].
  destruct ev; cbn; rewrite ?IH; try reflexivity.
  destruct lvl0, lvl; cbn; rewrite ?IH; reflexivity.
Qed.

Lemma step_when_exited :
  forall st sys,
    Esp32Control.pc sys = Esp32Control.Exited ->
    exists res sys' tr,
      Esp32Control.step st sys = (Returns res, sys', tr) /\
      Esp32Control.pc sys' = Esp32Control.Exited /\
      inputs tr = [] /\ puts tr = [] /\ logged ERROR tr = [].
Proof.
  intros st [[rn ms d q] p] H. cbn in H. subst p.
  destruct st as [| r | |]; unfold_control; run_eff;
    try destruct q; cbn; do 3 eexists; repeat split.
Qed.

Lemma run_when_exited :
  forall sched sys,
    Esp32Control.pc sys = Esp32Control.Exited ->
    let r := Esp32Control.run sched sys in
    Esp32Control.pc (self_after r) = Esp32Control.Exited /\
    inputs (trace r) = [] /\ puts (trace r) = [] /\ logged ERROR (trace r) = [].
Proof.
  induction sched as [|st rest IH]; intros sys H r; subst r.
  - cbn. auto.
  - destruct (step_when_exited st sys H) as (res & s1 & t1 & E & X & I & P & L).
    destruct (run_cons st rest sys res s1 t1 E) as [Et Es].
    rewrite Et, Es, inputs_app, puts_app, logged_app, I, P, L.
    apply (IH s1 X).
Qed.

(** X11.  The end of the input ends the thread for good.  When the
    pending [input()] raises, the thread leaves its loop and whatever
    follows (any schedule of steps) reads no further line and puts
    nothing on the queue.  An [EOFError] is silent; any other exception
    is logged once as an error, and nothing else is. *)
Theorem X11_end_of_input_ends_the_thread :
  forall (sched : list Esp32Control.Step) (sys : Esp32Control.Sys),
    Esp32Control.pc sys = Esp32Control.InInput ->
    (let r := Esp32Control.run
                (Esp32Control.InputAnswers Esp32Control.EOFError :: sched) sys in
     Esp32Control.pc (self_after r) = Esp32Control.Exited /\
     inputs (trace r) = [] /\ puts (trace r) = [] /\
     logged ERROR (trace r) = []) /\
    (forall e,
        let r := Esp32Control.run
                   (Esp32Control.InputAnswers (Esp32Control.InputException e)
                    :: sched) sys in
        Esp32Control.pc (self_after r) = Esp32Control.Exited /\
        inputs (trace r) = [] /\ puts (trace r) = [] /\
        logged ERROR (trace r) = ["Input error: " ++ e]).
Proof.
  intros sched [[rn ms d q] p] H. cbn in H. subst p. split.
  - intros r. subst r.
    match goal with
    | |- context [Esp32Control.run (?st :: sched) ?s] =>
        destruct (run_cons st sched s None _ [] eq_refl) as [Et Es]
    end.
    rewrite Et, Es. cbn [app]. apply run_when_exited. reflexivity.
  - intros e r. subst r.
    match goal with
    | |- context [Esp32Control.run (?st :: sched) ?s] =>
        destruct (run_cons st sched s None _
                    [Log ERROR ("Input error: " ++ e)] eq_refl) as [Et Es]
    end.
    rewrite Et, Es.
    match goal with
    | |- context [Esp32Control.run sched ?s] =>
        destruct (run_when_exited sched s eq_refl) as (X & I & P & L)
    end.
    rewrite inputs_app, puts_app, logged_app, I, P, L. cbn. auto.
Qed.

(** X11 on a run: end of input, then two more answers and a poll. *)
Lemma X11_end_of_input_witness :
  let sys := {| Esp32Control.self_of := Esp32Control.init;
                Esp32Control.pc := Esp32Control.InInput |} in
  let r := Esp32Control.run
             [Esp32Control.InputAnswers Esp32Control.EOFError;
              Esp32Control.TestRunning;
              Esp32Control.InputAnswers (Esp32Control.Line "forward");
              Esp32Control.SchedulerPolls] sys in
  Esp32Control.pc (self_after r) = Esp32Control.Exited /\
  inputs (trace r) = [] /\ puts (trace r) = [] /\
  logged ERROR (trace r) = [].
Proof.
  intros sys.
  exact (proj1 (X11_end_of_input_ends_the_thread
                  [Esp32Control.TestRunning;
                   Esp32Control.InputAnswers (Esp32Control.Line "forward");
                   Esp32Control.SchedulerPolls] sys eq_refl)).
Defined.

(** The input loop does not touch the text buffer. *)
Lemma input_loop_keeps_messages :
  forall script self,
    Esp32Control.messages (self_after (Esp32Control._input_loop script self)) =
      Esp32Control.messages self /\
    Esp32Control.descriptor_for_LLM
      (self_after (Esp32Control._input_loop script self)) =
      Esp32Control.descriptor_for_LLM self.
Proof.
  induction script as [|r script IH]; intros [rn ms d q]; [ split; reflexivity | ].
  cbn [Esp32Control._input_loop]. unfold_control. run_eff.
  destruct rn; cbn; [ | split; reflexivity ].
  destruct r as [line | | e]; cbn; try (split; reflexivity).
  destruct (str_truthy (strip line)); cbn;
    match goal with
    | |- context [Esp32Control._input_loop script ?s] =>
        specialize (IH s);
        destruct (Esp32Control._input_loop script s) as [[o s'] t']
    end; cbn in *; exact IH.
Qed.

Lemma poll_cycle_on_empty_queue :
  forall now rn ms d,
    control_poll_cycle now (control_state rn ms d []) =
      (Returns tt, control_state rn ms d [], [Sleep 1 10]).
Proof. reflexivity. Qed.

Lemma poll_cycle_first_item :
  forall now rn d x q,
    control_poll_cycle now (control_state rn [] d (x :: q)) =
      (Returns tt, control_state rn [x] d q, [Sleep 1 10; QueueGet x]).
Proof. reflexivity. Qed.

Lemma poll_cycle_next_item :
  forall now rn m d x q,
    control_poll_cycle now (control_state rn [m] d (x :: q)) =
      (Returns tt, control_state rn [m ++ " " ++ x] d q,
       [Sleep 1 10; QueueGet x]).
Proof. reflexivity. Qed.

(** Poll cycles, as many as the queue holds items or more, move the
    whole queue into the one entry of the buffer. *)
Lemma poll_cycles_drain_queue :
  forall times rn ms d q,
    length ms <= 1 ->
    length q <= length times ->
    exists tr,
      control_poll_cycles times (control_state rn ms d q) =
        (Returns tt,
         control_state rn
           match (ms ++ q)%list with [] => [] | l => [join_space l] end d [],
         tr).
Proof.
  induction times as [|now times IH]; intros rn ms d q Hm Hq.
  - destruct q; [ | cbn in Hq; lia ].
    destruct ms as [|m [|m' ms]]; [ | | cbn in Hm; lia ]; eexists; reflexivity.
  - unfold control_poll_cycles. cbn [map].
    destruct q as [|x q].
    + rewrite (in_turn_cons _ _ _ _ _ _ (poll_cycle_on_empty_queue now rn ms d)).
      fold (control_poll_cycles times).
      destruct (IH rn ms d [] Hm (Nat.le_0_l _)) as [tr ->].
      eexists. reflexivity.
    + cbn in Hq. destruct ms as [|m [|m' ms]]; [ | | cbn in Hm; lia ].
      * rewrite (in_turn_cons _ _ _ _ _ _ (poll_cycle_first_item now rn d x q)).
        fold (control_poll_cycles times).
        destruct (IH rn [x] d q) as [tr ->]; [ cbn; lia | lia | ].
        eexists. reflexivity.
      * rewrite (in_turn_cons _ _ _ _ _ _ (poll_cycle_next_item now rn m d x q)).
        fold (control_poll_cycles times).
        destruct (IH rn [m ++ " " ++ x] d q) as [tr ->]; [ cbn; lia | lia | ].
        eexists. cbn [outcome self_after trace fst snd app].
        now rewrite join_space_cons.
Qed.

(** X12.  From the keyboard to the planner.  The operator's lines are
    read by the input loop, taken from the queue by poll cycles (a poll,
    then [raw_to_text] on what it returned), and drained.  With at least
    as many poll cycles as lines kept, the queue ends empty and the drain
    returns ["User Command: "] followed by the non-blank lines in the
    order typed, joined by single spaces; when every line was blank it
    returns [None]. *)
Theorem X12_typed_lines_reach_the_drain_joined :
  forall (script : list Esp32Control.InputReply) (times : list Time) (now : Time)
         (self : Esp32Control.t),
    Esp32Control.running self = true ->
    Esp32Control.messages self = [] ->
    Esp32Control.message_buffer self = [] ->
    length (filter keeps (lines_before_end script)) <= length times ->
    let typed := self_after (Esp32Control._input_loop script self) in
    let polled := self_after (control_poll_cycles times typed) in
    let r := Esp32Control.formatted_latest_buffer now polled in
    Esp32Control.message_buffer polled = [] /\
    outcome r =
      Returns match filter keeps (lines_before_end script) with
              | [] => None
              | kept => Some ("User Command: " ++ join_space kept)
              end /\
    Esp32Control.messages (self_after r) = [].
Proof.
  intros script times now self Hr Hm Hq Hlen typed polled r.
  destruct (input_loop_spec script self Hr) as (_ & _ & _ & Q).
  destruct (input_loop_keeps_messages script self) as [M D].
  fold typed in Q, M, D. rewrite Hq in Q. rewrite Hm in M. cbn [app] in Q.
  destruct typed as [rn ms d q]. cbn in Q, M, D. subst ms q.
  destruct (poll_cycles_drain_queue times rn [] d
              (filter keeps (lines_before_end script))) as [tr E];
    [ cbn; lia | exact Hlen | ].
  fold (control_state rn [] d (filter keeps (lines_before_end script))) in polled.
  subst r polled. rewrite E. cbn [self_after fst snd app].
  destruct (filter keeps (lines_before_end script)) as [|k kept];
    repeat split.
Qed.

(** X12 on a run: "go", a blank line and "left" are typed; three poll
    cycles later the drain returns "User Command: go left". *)
Lemma X12_typed_lines_witness :
  let script := [Esp32Control.Line "go"; Esp32Control.Line "  ";
                 Esp32Control.Line "left"; Esp32Control.EOFError] in
  let typed := self_after (Esp32Control._input_loop script Esp32Control.init) in
  let polled := self_after (control_poll_cycles [1%Z; 2%Z; 3%Z] typed) in
  let r := Esp32Control.formatted_latest_buffer 4%Z polled in
  Esp32Control.message_buffer polled = [] /\
  outcome r =
    Returns match filter keeps (lines_before_end script) with
            | [] => None
            | kept => Some ("User Command: " ++ join_space kept)
            end /\
  Esp32Control.messages (self_after r) = [].
Proof.
  intros script.
  apply (X12_typed_lines_reach_the_drain_joined script [1%Z; 2%Z; 3%Z] 4%Z
           Esp32Control.init); try reflexivity.
  vm_compute. lia.
Defined.

Example typed_lines_example :
  outcome
    (Esp32Control.formatted_latest_buffer 4%Z
       (self_after
          (control_poll_cycles [1%Z; 2%Z; 3%Z]
             (self_after
                (Esp32Control._input_loop
                   [Esp32Control.Line "go"; Esp32Control.Line "  ";
                    Esp32Control.Line "left"; Esp32Control.EOFError]
                   Esp32Control.init)))))
  = Returns (Some "User Command: go left").
Proof. reflexivity. Qed.

(** ** The video source: construction, polling, replace-latest *)

(** X13.  What can leave [Esp32CamVideo.__init__], and what it makes.
    What leaves the [try] statement is not an instance of [Exception]
    and was raised by [cv2.VideoCapture(url)] or by [isOpened()]: an
    instance of [Exception] raised by either is caught and logged.  The
    constructor raises exactly what [super().__init__(config)] raises,
    or, that having returned, what leaves the [try] statement, or, the
    [try] statement having passed, what [IOProvider()] raises.  When
    all three pass, the object made has the empty buffer, the label
    "ESP32-CAM Video" and the configured rate, and holds the capture
    exactly when its constructor returned, also when the capture then
    reports itself not open or [isOpened()] raises; [cap] is [None] when
    the constructor of the capture raised.  When the [try] statement
    passes exactly one message is logged, an INFO when the capture is
    open and an ERROR otherwise; when it lets an exception through,
    nothing is logged.  The capture is neither read nor released. *)
Theorem X13_video_init_outcome :
  forall w config,
    let url := Esp32CamVideo.cfg_stream_url config in
    let made := fst (Esp32CamVideo.init w config) in
    let tr := snd (Esp32CamVideo.init w config) in
    let tried :=
      outcomeC (Esp32CamVideo.init_capture w config (Esp32CamVideo.fresh config)) in
    (forall x,
        tried = RaisesC x <->
        is_Exception x = false /\
        (Esp32CamVideo.VideoCapture_reply w url = RaisesC x \/
         exists h, Esp32CamVideo.VideoCapture_reply w url = ReturnsC h /\
                   Esp32CamVideo.init_isOpened_reply w h = RaisesC x)) /\
    (forall x,
        made = RaisesC x <->
        Esp32CamVideo.base_init_reply w = RaisesC x \/
        (Esp32CamVideo.base_init_reply w = ReturnsC tt /\
         (tried = RaisesC x \/
          (tried = ReturnsC tt /\ Esp32CamVideo.IOProvider_reply w = RaisesC x)))) /\
    (Esp32CamVideo.base_init_reply w = ReturnsC tt ->
     tried = ReturnsC tt ->
     Esp32CamVideo.IOProvider_reply w = ReturnsC tt ->
     exists self,
       made = ReturnsC self /\
       Esp32CamVideo.messages self = [] /\
       Esp32CamVideo.descriptor_for_LLM self = "ESP32-CAM Video" /\
       Esp32CamVideo.fps self = Esp32CamVideo.cfg_fps config /\
       Esp32CamVideo.cap self =
         match Esp32CamVideo.VideoCapture_reply w url with
         | ReturnsC h => Some h
         | RaisesC _ => None
         end) /\
    (Esp32CamVideo.base_init_reply w = ReturnsC tt ->
     (tried = ReturnsC tt ->
      logged WARNING tr = [] /\
      length (logged INFO tr) + length (logged ERROR tr) = 1 /\
      (length (logged INFO tr) = 1 <->
       exists h, Esp32CamVideo.VideoCapture_reply w url = ReturnsC h /\
                 Esp32CamVideo.init_isOpened_reply w h = ReturnsC true)) /\
     (forall x, tried = RaisesC x ->
        logged WARNING tr = [] /\ logged INFO tr = [] /\ logged ERROR tr = [])) /\
    existsb (fun ev => match ev with
                       | CapRelease _ | CapRead _ => true
                       | _ => false
                       end) tr = false.
Proof.
  intros w [url ty f a] url0 made tr tried. subst url0 made tr tried.
  unfold Esp32CamVideo.init, Esp32CamVideo.init_capture, Esp32CamVideo.fresh.
  unfold Esp32CamVideo.set_cap. run_effC.
  destruct (Esp32CamVideo.base_init_reply w) as [[]|x0]; cbn;
    (destruct (Esp32CamVideo.VideoCapture_reply w url) as [h|[[] t1]]; cbn;
      [ destruct (Esp32CamVideo.init_isOpened_reply w h) as [[]|[[] t2]] eqn:O; cbn
      | | ]);
    destruct (Esp32CamVideo.IOProvider_reply w) as [[]|x3]; cbn;
    repeat match goal with
      | |- _ /\ _ => split
      | |- _ <-> _ => split
      | |- forall _, _ => intro
      end;
    repeat match goal with
      | H : _ /\ _ |- _ => destruct H
      | H : exists _, _ |- _ => destruct H
      | H : _ \/ _ |- _ => destruct H
      | H : ReturnsC _ = ReturnsC _ |- _ => inversion H; clear H; subst
      | H : RaisesC _ = RaisesC _ |- _ => inversion H; clear H; subst
      end;
    cbn in *;
    try discriminate; try congruence; auto;
    try (eexists; repeat split; reflexivity);
    try (eexists; split; [ reflexivity | assumption ]).
  all: try (right; split; [ reflexivity | ]; auto; fail).
  all: try (split; [ reflexivity | ]; right; eexists; split; eauto; fail).
  all: try (right; eexists; split; [ reflexivity | assumption ]).
  all: match goal with
       | H1 : ?a = RaisesC _, H2 : ?a = RaisesC _ |- _ =>
           rewrite H1 in H2; inversion H2; subst; cbn in *; discriminate
       end.
Qed.

(** X13 on a run: the stream cannot be opened ([cv2.VideoCapture]
    raises an instance of [Exception]) and [IOProvider()] returns; the
    object is made, without a capture. *)
Lemma X13_video_init_witness :
  let w := {| Esp32CamVideo.base_init_reply := ReturnsC tt;
              Esp32CamVideo.VideoCapture_reply :=
                fun _ => RaisesC {| is_Exception := true;
                                    text := "cannot open stream" |};
              Esp32CamVideo.init_isOpened_reply := fun _ => ReturnsC false;
              Esp32CamVideo.IOProvider_reply := ReturnsC tt |} in
  exists self,
    fst (Esp32CamVideo.init w Esp32CamVideo.default_config) = ReturnsC self /\
    Esp32CamVideo.messages self = [] /\
    Esp32CamVideo.descriptor_for_LLM self = "ESP32-CAM Video" /\
    Esp32CamVideo.fps self = 5%Z /\
    Esp32CamVideo.cap self = None.
Proof.
  intros w.
  exact (proj1 (proj2 (proj2
           (X13_video_init_outcome w Esp32CamVideo.default_config)))
           eq_refl eq_refl eq_refl).
Defined.

(** The stream opens. *)
Example video_init_run :
  Esp32CamVideo.init
    {| Esp32CamVideo.base_init_reply := ReturnsC tt;
       Esp32CamVideo.VideoCapture_reply := fun _ => ReturnsC 1;
       Esp32CamVideo.init_isOpened_reply := fun _ => ReturnsC true;
       Esp32CamVideo.IOProvider_reply := ReturnsC tt |}
    Esp32CamVideo.default_config =
    (ReturnsC (video_object Esp32CamVideo.default_config 1),
     [VideoCaptureOpen "http://192.168.1.100:81/stream"; CapIsOpened 1;
      Log INFO "Connected to ESP32-CAM stream: http://192.168.1.100:81/stream"]).
Proof. reflexivity. Qed.

(** An interrupt during [cv2.VideoCapture(url)] leaves the constructor;
    nothing is logged. *)
Example video_init_interrupted :
  Esp32CamVideo.init
    {| Esp32CamVideo.base_init_reply := ReturnsC tt;
       Esp32CamVideo.VideoCapture_reply :=
         fun _ => RaisesC {| is_Exception := false; text := EmptyString |};
       Esp32CamVideo.init_isOpened_reply := fun _ => ReturnsC true;
       Esp32CamVideo.IOProvider_reply := ReturnsC tt |}
    Esp32CamVideo.default_config =
    (RaisesC {| is_Exception := false; text := EmptyString |},
     [VideoCaptureOpen "http://192.168.1.100:81/stream"]).
Proof. reflexivity. Qed.

(** X14.  What a poll of the video source returns.  The delay
    [1.0 / self.fps] computes exactly for a rate that is not 0 and whose
    magnitude is below [2^1024 - 2^970]; otherwise the division raises
    ([ZeroDivisionError], [OverflowError]) and the poll raises with it,
    without any call.  The poll returns a frame exactly when the delay
    computes, a capture is held, [isOpened()] returns true and [read()]
    returns that frame with a true flag; then nothing is logged as a
    warning or an error.  It raises exactly with the exception of the
    division, of [isOpened()], or of [read()] on a capture that reported
    itself open.  [read()] is called only on a held capture that has just
    reported itself open. *)
Theorem X14_video_poll_outcomes :
  forall (w : Esp32CamVideo.World) (self : Esp32CamVideo.t),
    let r := Esp32CamVideo._poll w self in
    let divides := Esp32CamVideo.one_over (Esp32CamVideo.fps self) in
    (divides = Returns tt <->
       Esp32CamVideo.fps self <> 0%Z /\
       (Z.abs (Esp32CamVideo.fps self) < 2 ^ 1024 - 2 ^ 970)%Z) /\
    (forall frame,
        outcome r = Returns (Some frame) <->
          divides = Returns tt /\
          exists h, Esp32CamVideo.cap self = Some h /\
                    Esp32CamVideo.isOpened_reply w h = Returns true /\
                    Esp32CamVideo.read_reply w h = Returns (true, Some frame)) /\
    (forall e,
        outcome r = Raises e <->
          divides = Raises e \/
          (divides = Returns tt /\
           exists h, Esp32CamVideo.cap self = Some h /\
                     (Esp32CamVideo.isOpened_reply w h = Raises e \/
                      (Esp32CamVideo.isOpened_reply w h = Returns true /\
                       Esp32CamVideo.read_reply w h = Raises e)))) /\
    (forall e, divides = Raises e -> trace r = []) /\
    (forall h, In (CapRead h) (trace r) ->
               Esp32CamVideo.cap self = Some h /\
               Esp32CamVideo.isOpened_reply w h = Returns true) /\
    (forall frame, outcome r = Returns (Some frame) ->
                   logged WARNING (trace r) = [] /\ logged ERROR (trace r) = []).
Proof.
  intros w [u ty f a c ms d] r divides. subst r divides.
  split; [ apply one_over_returns_iff | ].
  unfold_video. run_eff.
  destruct (Esp32CamVideo.one_over f) as [[]|e0]; cbn;
    [ destruct c as [h|]; cbn;
        [ destruct (Esp32CamVideo.isOpened_reply w h) as [[]|e1] eqn:O; cbn;
          [ destruct (Esp32CamVideo.read_reply w h) as [[[] fr]|e2] eqn:R; cbn
          | | ]
        | ]
    | ];
    repeat match goal with
      | |- _ /\ _ => split
      | |- _ <-> _ => split
      | |- forall _, _ => intro
      end;
    repeat match goal with
      | H : _ /\ _ |- _ => destruct H
      | H : exists _, _ |- _ => destruct H
      | H : _ \/ _ |- _ => destruct H
      | H : False |- _ => destruct H
      | H : Some _ = Some _ |- _ => inversion H; clear H; subst
      | H : Returns _ = Returns _ |- _ => inversion H; clear H; subst
      | H : Raises _ = Raises _ |- _ => inversion H; clear H; subst
      | H : CapIsOpened _ = CapRead _ |- _ => discriminate H
      | H : CapRead _ = CapRead _ |- _ => inversion H; clear H; subst
      | H : Log _ _ = CapRead _ |- _ => discriminate H
      | H : Sleep _ _ = CapRead _ |- _ => discriminate H
      end;
    try discriminate; try contradiction; try congruence; auto;
    try (split; [ reflexivity | ]; eexists; repeat split; eauto; congruence);
    try (right; split; [ reflexivity | ]; eexists; split; [ reflexivity | ];
         auto; fail);
    try (eexists; repeat split; eauto; fail).
Qed.

(** X14 on a run: the rate is 0 and the poll raises without a call. *)
Lemma X14_video_poll_witness :
  let w := video_world true (true, Some {| Esp32CamVideo.height := 480;
                                            Esp32CamVideo.width := 640 |})
             "12:00:00" 0%Z in
  let self := video_object
                {| Esp32CamVideo.cfg_stream_url := "http://10.0.0.2:81/stream";
                   Esp32CamVideo.cfg_stream_type := "http";
                   Esp32CamVideo.cfg_fps := 0;
                   Esp32CamVideo.cfg_analyze_with_vlm := false |} 1 in
  trace (Esp32CamVideo._poll w self) = [].
Proof.
  intros w self.
  exact (proj1 (proj2 (proj2 (proj2 (X14_video_poll_outcomes w self))))
           "float division by zero" eq_refl).
Defined.

Lemma video_raw_to_text_frame :
  forall p self ms,
    Esp32CamVideo.raw_to_text (fst p) (Some (snd p)) (video_with_messages self ms) =
      (Returns tt, video_with_messages self (ms ++ [video_message self p]), []).
Proof. intros [w f] [u ty fp a c ms0 d] ms. reflexivity. Qed.

Lemma video_produce_appends :
  forall frames self ms,
    video_produce frames (video_with_messages self ms) =
      (Returns tt,
       video_with_messages self (ms ++ map (video_message self) frames), []).
Proof.
  induction frames as [|p frames IH]; intros self ms.
  - cbn. now rewrite app_nil_r.
  - unfold video_produce. cbn [map].
    rewrite (in_turn_cons _ _ _ _ _ _ (video_raw_to_text_frame p self ms)).
    fold (video_produce frames). rewrite IH.
    cbn [outcome self_after trace fst snd app].
    now rewrite <- app_assoc.
Qed.

Lemma video_with_own_messages :
  forall self, video_with_messages self (Esp32CamVideo.messages self) = self.
Proof. intros []. reflexivity. Qed.

(** X15.  Replace-latest.  The video source appends one Message for
    every frame converted, so between drains the buffer grows by one per
    frame.  The drain reports the latest one only: its text is the
    envelope of the Message made from the last frame, [add_input] is
    called once, with that Message's text and the clock reading of its
    conversion, and all the earlier Messages are dropped with the
    buffer. *)
Theorem X15_drain_reports_the_latest_frame_only :
  forall (frames : list (Esp32CamVideo.World * Esp32CamVideo.Frame))
         (latest : Esp32CamVideo.World * Esp32CamVideo.Frame)
         (self : Esp32CamVideo.t),
    let produced := video_produce (frames ++ [latest]) self in
    let r := Esp32CamVideo.formatted_latest_buffer (self_after produced) in
    outcome produced = Returns tt /\
    Esp32CamVideo.messages (self_after produced) =
      (Esp32CamVideo.messages self ++ map (video_message self) frames
       ++ [video_message self latest])%list /\
    outcome (Esp32CamVideo._raw_to_text (fst latest) (Some (snd latest)) self) =
      Returns (Some (video_message self latest)) /\
    timestamp (video_message self latest) = Esp32CamVideo.time_reply (fst latest) /\
    outcome r =
      Returns (Some (nl ++ "INPUT: " ++ Esp32CamVideo.descriptor_for_LLM self ++ nl
                     ++ "// START" ++ nl ++ message (video_message self latest)
                     ++ nl ++ "// END" ++ nl)) /\
    trace r = [AddInput Esp32CamVideo.class_name
                 (message (video_message self latest))
                 (Esp32CamVideo.time_reply (fst latest))] /\
    Esp32CamVideo.messages (self_after r) = [].
Proof.
  intros frames latest self produced r.
  pose proof (video_produce_appends (frames ++ [latest]) self
                (Esp32CamVideo.messages self)) as E.
  rewrite video_with_own_messages, map_app in E. cbn [map] in E.
  subst r produced. rewrite E. cbn [outcome self_after fst snd].
  rewrite (video_drain_nonempty _
             (Esp32CamVideo.messages self ++ map (video_message self) frames)
             (video_message self latest))
    by (cbn [video_with_messages Esp32CamVideo.messages];
        now rewrite app_assoc).
  destruct latest as [w f]. destruct self as [u ty fp a c ms d].
  repeat split.
Qed.

Example drain_after_two_frames :
  outcome
    (Esp32CamVideo.formatted_latest_buffer
       (self_after
          (video_produce
             [ (video_world true (false, None) "12:00:00" 10%Z,
                {| Esp32CamVideo.height := 240; Esp32CamVideo.width := 320 |});
               (video_world true (false, None) "12:00:01" 11%Z,
                {| Esp32CamVideo.height := 480; Esp32CamVideo.width := 640 |}) ]
             (video_object Esp32CamVideo.default_config 1))))
  = Returns (Some (nl ++ "INPUT: ESP32-CAM Video" ++ nl ++ "// START" ++ nl
                   ++ "Received video frame at 12:00:01 (640x480 pixels). Video stream active."
                   ++ nl ++ "// END" ++ nl)).
Proof. reflexivity. Qed.
